(** * A shallow embedding of [generate_loan_portfolio]

    The program under study is [src/generate_loan_portfolio.py]: one routine
    that seeds a NumPy [Generator], draws a fixed sequence of random vectors,
    derives dependent columns and assembles a [pandas.DataFrame].

    Modelling choices.
    - The generator is state that is threaded through every draw; the routine
      is written in a state-and-exception monad [M].  The state also counts the
      variates drawn so far, so that "fails before any draw" can be stated.
    - The bit generator (PCG64), the samplers that NumPy implements in C and
      [np.exp] are the fields of a record [Runtime].  What the proofs need of
      them (the documented ranges) is the record [Lawful].
    - [np.empty] hands out memory as it finds it.  What the cells hold is an
      input of the model, [memory], next to the two arguments of the routine.
    - A [float64] is modelled by the rational number it denotes and arithmetic
      is exact; [nan] and [NaT] are [None].  Rounding is outside the model.
      The edges of the rating table are compared with [pd_1y] itself, so they
      are the exact values of the binary64 literals of the source (each a
      little above its decimal); the parameters of the samplers are written
      as the decimals of the source.
    - A [datetime] at midnight is its proleptic Gregorian ordinal (what
      [datetime.toordinal] returns); a [timedelta] is a number of days.
    - Every NumPy or pandas call that can raise on the arguments the routine
      passes is modelled with its check and the exception it raises.
    - Division of floats by zero gives [inf] or [nan] in NumPy and 0 in [Q];
      every quotient that a theorem speaks of has a divisor shown non-zero.
    - The memory of the host is one number of the runtime, [array_limit]: the
      longest array that it holds.  [np.arange] at line 20 builds the first
      array of the routine and none that follows is longer, so it is there
      that a loan count beyond the limit raises [MemoryError]; a length whose
      size in bytes does not fit [intp] is refused before memory is asked
      for.  A host that runs the interpreter holds an array of one element.
      The int64 bounds that [integers] checks are modelled. *)

From Stdlib Require Import ZArith QArith Qabs Lia Lqa String.
From stdpp Require Import base list.

Local Open Scope string_scope.
Local Open Scope Z_scope.

(** ** Exceptions *)

(** The reason carried by a [ValueError]. *)
Inductive cause : Type :=
  | NegativeSeed          (* SeedSequence: expected non-negative integer *)
  | LowGeHigh             (* integers: low >= high *)
  | OutOfBounds           (* integers: low or high outside int64 *)
  | NegativeDimensions    (* an array of negative size was requested *)
  | ArrayTooBig           (* the size of the array in bytes exceeds intp *)
  | EmptyPopulation       (* choice: a cannot be empty *)
  | BadProbabilities      (* choice: p mismatched, negative or not summing to 1 *)
  | BadParameter          (* normal: scale < 0; beta: a <= 0 or b <= 0;
                             binomial: n < 0, p < 0 or p > 1 *)
  | ShapeMismatch         (* boolean index or assigned values of the wrong size *)
  | UnequalLengths.       (* DataFrame: all arrays must be of the same length *)

Inductive exn : Type :=
  | ValueError (c : cause)
  | IndexError               (* an index outside the array, a boolean index
                                of the wrong length *)
  | KeyError                 (* a column that the frame does not have *)
  | MemoryError.             (* the host cannot allocate the array *)

(** ** The runtime: bit generator, samplers, [exp], memory *)

Record Runtime : Type := {
  bitgen : Type;
  (** [np.random.default_rng(seed)] for a seed that was accepted *)
  seed_bitgen : Z -> bitgen;
  (** [random_bounded_uint64]: a draw from the closed range [0, rng] *)
  bounded_uint64 : Z -> bitgen -> Z * bitgen;
  (** [next_double]: a draw from [0, 1) *)
  next_double : bitgen -> Q * bitgen;
  (** [random_standard_normal] *)
  standard_normal : bitgen -> Q * bitgen;
  (** [random_beta a b] *)
  beta_variate : Q -> Q -> bitgen -> Q * bitgen;
  (** [random_binomial p n] *)
  binomial_variate : Z -> Q -> bitgen -> Z * bitgen;
  (** [np.exp] on one element *)
  np_exp : Q -> Q;
  (** the number of elements of the longest array that the host holds *)
  array_limit : positive
}.

Record Lawful (R : Runtime) : Prop := {
  bounded_uint64_range : forall rng g,
    0 <= rng -> 0 <= (bounded_uint64 R rng g).1 <= rng;
  next_double_range : forall g,
    (0 <= (next_double R g).1)%Q /\ ((next_double R g).1 < 1)%Q;
  beta_variate_range : forall a b g,
    (0 <= (beta_variate R a b g).1)%Q /\ ((beta_variate R a b g).1 <= 1)%Q;
  binomial_variate_range : forall n p g,
    0 <= n -> 0 <= (binomial_variate R n p g).1 <= n;
  np_exp_pos : forall x, (0 < np_exp R x)%Q
}.

(** ** The monad: generator state, draw count, exceptions *)

Section Monad.
Context {R : Runtime}.

Record state : Type := { gen : bitgen R; consumed : nat }.

Inductive outcome (A : Type) : Type :=
  | Returned (a : A) (st : state)
  | Raised (e : exn) (st : state).
Global Arguments Returned {A} a st.
Global Arguments Raised {A} e st.

Definition M (A : Type) : Type := state -> outcome A.

Definition ret {A} (a : A) : M A := fun st => Returned a st.

Definition bind {A B} (m : M A) (k : A -> M B) : M B :=
  fun st => match m st with
            | Returned a st' => k a st'
            | Raised e st' => Raised e st'
            end.

Definition raise {A} (e : exn) : M A := fun st => Raised e st.

(** One variate: the sampler advances the generator, the count goes up. *)
Definition draw {A} (sampler : bitgen R -> A * bitgen R) : M A :=
  fun st => let (a, g) := sampler (gen st) in
            Returned a {| gen := g; consumed := S (consumed st) |}.

(** [size] variates in index order. *)
Fixpoint fill {A} (size : nat) (m : M A) : M (list A) :=
  match size with
  | O => ret []
  | S k => bind m (fun x => bind (fill k m) (fun xs => ret (x :: xs)))
  end.

(** A vector operation applied to each element by a loop that may raise. *)
Fixpoint for_each {A B} (f : A -> M B) (xs : list A) : M (list B) :=
  match xs with
  | [] => ret []
  | x :: xs' => bind (f x) (fun y => bind (for_each f xs') (fun ys => ret (y :: ys)))
  end.
End Monad.

Global Arguments state : clear implicits.
Global Arguments outcome : clear implicits.
Global Arguments M : clear implicits.

Declare Scope py_scope.
Delimit Scope py_scope with py.
Notation "x <~ m ;; k" := (bind m (fun x => k))
  (at level 100, m at next level, right associativity) : py_scope.
Notation "m ;;; k" := (bind m (fun _ => k))
  (at level 100, right associativity) : py_scope.

(** ** Arrays *)

Section Arrays.
Context {A : Type}.

(** [a[i]] for an integer [i]: negative indices count from the end. *)
Definition getitem (a : list A) (i : Z) : option A :=
  let j := if i <? 0 then i + Z.of_nat (length a) else i in
  if j <? 0 then None else a !! Z.to_nat j.

(** [mask.sum()] *)
Fixpoint count_true (mask : list bool) : nat :=
  match mask with
  | [] => O
  | b :: mask' => (if b then 1 else 0) + count_true mask'
  end.

(** [a[mask]] where both have the same length. *)
Fixpoint compress (mask : list bool) (a : list A) : list A :=
  match mask, a with
  | b :: mask', x :: a' => if b then x :: compress mask' a' else compress mask' a'
  | _, _ => []
  end.

(** [a[mask] = vals] where [vals] has one value per selected cell. *)
Fixpoint scatter (mask : list bool) (a vals : list A) : list A :=
  match mask, a with
  | b :: mask', x :: a' =>
      if b then
        match vals with
        | v :: vals' => v :: scatter mask' a' vals'
        | [] => x :: scatter mask' a' []
        end
      else x :: scatter mask' a' vals
  | _, _ => a
  end.

(** [np.where(mask, v, a)]: what a masked copy of [v] into [a] amounts to. *)
Fixpoint select (mask : list bool) (v a : list A) : list A :=
  match mask, v, a with
  | b :: mask', x :: v', y :: a' => (if b then x else y) :: select mask' v' a'
  | _, _, _ => []
  end.

(** [np.where(mask)[0]]: the selected positions, ascending. *)
Fixpoint nonzero_from (i : nat) (mask : list bool) : list nat :=
  match mask with
  | [] => []
  | b :: mask' => if b then i :: nonzero_from (S i) mask' else nonzero_from (S i) mask'
  end.
Definition nonzero (mask : list bool) : list nat := nonzero_from 0 mask.

(** [series[idx] = v] on a pandas Series with the default index: an
    existing label is overwritten, a new label enlarges the Series. *)
Definition series_set (s : list A) (idx : nat) (v : A) : list A :=
  if (idx <? length s)%nat then <[idx := v]> s else s ++ [v].
End Arrays.

(** The integers from [start] up to [stop], [stop] excluded. *)
Definition range_values (start stop : Z) : list Z :=
  map (fun k => start + Z.of_nat k) (seq 0 (Z.to_nat (stop - start))).

(** [np.cumsum] *)
Fixpoint cumsum_from (acc : Q) (p : list Q) : list Q :=
  match p with
  | [] => []
  | x :: p' => (acc + x)%Q :: cumsum_from (acc + x)%Q p'
  end.
Definition cumsum (p : list Q) : list Q := cumsum_from 0%Q p.

Definition Qsum (p : list Q) : Q := fold_right Qplus 0%Q p.

(** [sorted.searchsorted(x, side='right')] on a non-decreasing array: the
    number of entries that are [<= x]. *)
Definition searchsorted_right (sorted : list Q) (x : Q) : nat :=
  length (List.filter (fun c => Qle_bool c x) sorted).

(** [sorted.searchsorted(x, side='left')] on a non-decreasing array: the
    number of entries that are [< x]. *)
Definition searchsorted_left (sorted : list Q) (x : Q) : nat :=
  length (List.filter (fun c => negb (Qle_bool x c)) sorted).

Definition Qlt_bool (x y : Q) : bool := negb (Qle_bool y x).

(** ** The NumPy calls of the routine *)

Section NumPy.
Context {R : Runtime}.
Local Open Scope py_scope.

Definition int64_min : Z := - 2 ^ 63.
Definition int64_max : Z := 2 ^ 63 - 1.
Definition intp_max : Z := 2 ^ 63 - 1.

(** [np.arange(start, stop)] on integers: an int64 array of
    [max(stop - start, 0)] elements of 8 bytes.  A size in bytes beyond
    [intp] is a [ValueError]; an array that the host cannot hold is a
    [MemoryError]. *)
Definition arange (start stop : Z) : M R (list Z) :=
  let len := Z.max (stop - start) 0 in
  if intp_max <? 8 * len then raise (ValueError ArrayTooBig)
  else if Z.pos (array_limit R) <? len then raise MemoryError
  else ret (range_values start stop).

(** [np.random.default_rng(seed)]: a negative seed is refused. *)
Definition default_rng (seed : Z) : exn + state R :=
  if seed <? 0 then inl (ValueError NegativeSeed)
  else inr {| gen := seed_bitgen R seed; consumed := O |}.

Definition lift {A} (e : exn) (o : option A) : M R A :=
  match o with
  | Some a => ret a
  | None => raise e
  end.

(** One bounded integer: [low] plus a draw from the closed range. *)
Definition bounded (low high : Z) : M R Z :=
  draw (fun g => let (v, g') := bounded_uint64 R (high - 1 - low) g in (low + v, g')).

(** The checks that [integers] makes on scalar bounds. *)
Definition check_bounds (low high : Z) : M R unit :=
  if low <? int64_min then raise (ValueError OutOfBounds)
  else if int64_max <? high - 1 then raise (ValueError OutOfBounds)
  else if high - 1 <? low then raise (ValueError LowGeHigh)
  else ret tt.

(** [rng.integers(low, high, size=size)]: an empty request returns before
    the bounds are looked at. *)
Definition integers (low high size : Z) : M R (list Z) :=
  if size =? 0 then ret []
  else check_bounds low high ;;;
       if size <? 0 then raise (ValueError NegativeDimensions)
       else fill (Z.to_nat size) (bounded low high).

(** [rng.integers(low, high)] *)
Definition integers1 (low high : Z) : M R Z :=
  check_bounds low high ;;; bounded low high.

(** [rng.random(size)] *)
Definition random (size : Z) : M R (list Q) :=
  if size <? 0 then raise (ValueError NegativeDimensions)
  else fill (Z.to_nat size) (draw (next_double R)).

(** [a[idx]] for an array of integer positions. *)
Definition take {A} (a : list A) (idx : list Z) : M R (list A) :=
  for_each (fun i => lift IndexError (getitem a i)) idx.

(** The tolerance of [choice] on the sum of [p]: [sqrt(eps)] is [2^-26]. *)
Definition atol : Q := 1 # (2 ^ 26).

Definition valid_p (pop_size : nat) (p : list Q) : bool :=
  (length p =? pop_size)%nat
  && forallb (fun x => Qle_bool 0 x) p
  && Qle_bool (Qabs (Qsum p - 1)) atol.

(** [rng.choice(a, size=size, p=p)], with replacement.  With [p] the
    positions come from inverting the normalised cumulative sums on
    uniform doubles; without, from [integers]. *)
Definition choice {A} (a : list A) (size : Z) (p : option (list Q)) : M R (list A) :=
  if (length a =? 0)%nat && negb (size =? 0) then raise (ValueError EmptyPopulation)
  else match p with
       | Some p =>
           if valid_p (length a) p then
             let cdf := cumsum p in
             let cdf := map (fun c => c / List.last cdf 0)%Q cdf in
             u <~ random size ;;
             take a (map (fun x => Z.of_nat (searchsorted_right cdf x)) u)
           else raise (ValueError BadProbabilities)
       | None =>
           idx <~ integers 0 (Z.of_nat (length a)) size ;;
           take a idx
       end.

(** [rng.normal(loc, scale, size=size)] *)
Definition normal (loc scale : Q) (size : Z) : M R (list Q) :=
  if Qlt_bool scale 0 then raise (ValueError BadParameter)
  else if size <? 0 then raise (ValueError NegativeDimensions)
  else fill (Z.to_nat size)
         (draw (fun g => let (z, g') := standard_normal R g in (loc + scale * z, g')%Q)).

(** [rng.beta(a, b, size=size)] *)
Definition beta (a b : Q) (size : Z) : M R (list Q) :=
  if Qle_bool a 0 || Qle_bool b 0 then raise (ValueError BadParameter)
  else if size <? 0 then raise (ValueError NegativeDimensions)
  else fill (Z.to_nat size) (draw (beta_variate R a b)).

(** [rng.uniform(low, high, size=size)] *)
Definition uniform (low high : Q) (size : Z) : M R (list Q) :=
  if size <? 0 then raise (ValueError NegativeDimensions)
  else fill (Z.to_nat size)
         (draw (fun g => let (u, g') := next_double R g in (low + (high - low) * u, g')%Q)).

(** [rng.binomial(n, p)] for an array [p]: every entry is checked before
    the first draw. *)
Definition binomial (n : Z) (p : list Q) : M R (list Z) :=
  if (n <? 0) || negb (forallb (fun x => Qle_bool 0 x && Qle_bool x 1) p)
  then raise (ValueError BadParameter)
  else for_each (fun x => draw (binomial_variate R n x)) p.

(** [a[mask]] *)
Definition getmask {A} (a : list A) (mask : list bool) : M R (list A) :=
  if (length a =? length mask)%nat then ret (compress mask a) else raise IndexError.

(** [a[mask] = vals]: one value per selected cell, or a single value that
    is broadcast. *)
Definition setmask {A} (a : list A) (mask : list bool) (vals : list A) : M R (list A) :=
  if negb (length a =? length mask)%nat then raise IndexError
  else if (length vals =? count_true mask)%nat then ret (scatter mask a vals)
  else match vals with
       | [v] => ret (scatter mask a (replicate (count_true mask) v))
       | _ => raise (ValueError ShapeMismatch)
       end.

(** [x op y] on two arrays: equal lengths, or one operand of length one
    that is broadcast. *)
Definition elementwise {A B C} (op : A -> B -> C) (x : list A) (y : list B) : M R (list C) :=
  if (length x =? length y)%nat then ret (zip_with op x y)
  else match x, y with
       | [a], _ => ret (map (op a) y)
       | _, [b] => ret (map (fun a => op a b) x)
       | _, _ => raise (ValueError ShapeMismatch)
       end.
End NumPy.

(** ** The pandas calls of the routine *)

(** A date is its ordinal. *)
Abbreviation date := Z (only parsing).

Inductive column : Type :=
  | IntColumn (v : list Z)
  | TextColumn (v : list string)
  | FloatColumn (v : list (option Q))         (* [None] is [nan] *)
  | DateColumn (v : list (option date))       (* [None] is [NaT] *)
  | CategoricalColumn (v : list (option string)).

Definition column_length (c : column) : nat :=
  match c with
  | IntColumn v => length v
  | TextColumn v => length v
  | FloatColumn v => length v
  | DateColumn v => length v
  | CategoricalColumn v => length v
  end.

(** A frame is its columns in order, as the dict that built it. *)
Definition DataFrame : Type := list (string * column).

Definition columns (df : DataFrame) : list string := map fst df.

Definition nrows (df : DataFrame) : nat :=
  match df with
  | [] => O
  | (_, c) :: _ => column_length c
  end.

Fixpoint get_column (name : string) (df : DataFrame) : option column :=
  match df with
  | [] => None
  | (k, c) :: df' => if String.eqb k name then Some c else get_column name df'
  end.

(** [df[name] = c] for a column that exists: replaced in place. *)
Fixpoint set_column (name : string) (c : column) (df : DataFrame) : DataFrame :=
  match df with
  | [] => [(name, c)]
  | (k, c') :: df' =>
      if String.eqb k name then (k, c) :: df' else (k, c') :: set_column name c df'
  end.

Fixpoint strictly_increasing (bins : list Q) : bool :=
  match bins with
  | x :: ((y :: _) as bins') => Qlt_bool x y && strictly_increasing bins'
  | _ => true
  end.

(** The bucket of one value under [pd.cut(..., right=True)]: position by
    [searchsorted(side='left')], the lowest edge moved into the first bucket
    when [include_lowest], [nan] outside the edges. *)
Definition cut1 (bins : list Q) (labels : list string) (include_lowest : bool)
    (x : Q) : option string :=
  let ids := searchsorted_left bins x in
  let ids := if include_lowest && Qeq_bool x (hd 0%Q bins) then 1%nat else ids in
  if (ids =? length bins)%nat || (ids =? 0)%nat then None
  else labels !! (ids - 1)%nat.

(** [pd.to_datetime(c).dt.date]: on day ordinals every date and every [NaT]
    is kept.  The routine passes date columns only; another column is left
    as it is. *)
Definition dt_date (c : column) : column :=
  match c with
  | DateColumn v => DateColumn v
  | other => other
  end.

Section Pandas.
Context {R : Runtime}.
Local Open Scope py_scope.

(** [pd.cut(x, bins=bins, labels=labels, include_lowest=...)] for a list of
    edges: the edges must increase and there is one label per bucket. *)
Definition cut (x : list Q) (bins : list Q) (labels : list string)
    (include_lowest : bool) : M R (list (option string)) :=
  if negb (strictly_increasing bins) then raise (ValueError BadParameter)
  else if negb (length labels =? length bins - 1)%nat then raise (ValueError BadParameter)
  else ret (map (cut1 bins labels include_lowest) x).

(** [pd.DataFrame(data)] for a dict of arrays. *)
Definition mk_DataFrame (data : list (string * column)) : M R DataFrame :=
  match data with
  | [] => ret []
  | (_, c) :: rest =>
      if forallb (fun kc => (column_length kc.2 =? column_length c)%nat) rest
      then ret data
      else raise (ValueError UnequalLengths)
  end.

(** [df[name] = pd.to_datetime(df[name]).dt.date] *)
Definition to_pure_date (name : string) (df : DataFrame) : M R DataFrame :=
  c <~ lift KeyError (get_column name df) ;;
  ret (set_column name (dt_date c) df).
End Pandas.

(** ** The routine *)

Record Locals : Type := {
  loan_id : list Z;
  borrower_id : list Z;
  segment : list string;
  country : list string;
  origination_offset_days : list Z;
  origination_date : list date;
  maturity_offset_years : list Z;
  maturity_date : list date;
  currency : list string;
  interest_rate : list Q;
  pd_1y : list Q;
  lgd : list Q;
  ead : list Q;
  has_collateral : list Z;
  ltv_target : list Q;
  collateral_value : list Q;
  ltv : list (option Q);
  is_default : list Z;
  default_date : list (option date);
  days_past_due : list Z;
  expected_loss : list Q;
  provision_amount : list Q;
  internal_rating : list (option string);
  df : DataFrame
}.

(** [datetime(2025, 1, 1)] as an ordinal. *)
Definition today : date := 739252.

(** The binary64 values of the literals that meet [pd_1y]: [0.005] is
    [5764607523034235 / 2^60], [0.01] is [5764607523034235 / 2^59], [0.02] is
    [5764607523034235 / 2^58] and [0.05] is [3602879701896397 / 2^56], each
    above its decimal; [0.003] is [3458764513820541 / 2^60] and [0.03] is
    [1080863910568919 / 2^55]; 0, 0.5 and 1 are exact. *)
Definition f64_0_005 : Q := 5764607523034235 # 1152921504606846976.
Definition f64_0_01 : Q := 5764607523034235 # 576460752303423488.
Definition f64_0_02 : Q := 5764607523034235 # 288230376151711744.
Definition f64_0_05 : Q := 3602879701896397 # 72057594037927936.
Definition f64_0_003 : Q := 3458764513820541 # 1152921504606846976.
Definition f64_0_03 : Q := 1080863910568919 # 36028797018963968.

Definition rating_bins : list Q := [0; f64_0_005; f64_0_01; f64_0_02; f64_0_05; 1]%Q.
Definition rating_labels : list string := ["AAA"; "AA"; "A"; "BBB"; "BB/B"].

(** [arr == s] and [arr == k], element by element. *)
Definition eq_str (arr : list string) (s : string) : list bool := map (fun x => String.eqb x s) arr.
Definition eq_int (arr : list Z) (k : Z) : list bool := map (fun x => x =? k) arr.

Section Routine.
Context {R : Runtime}.
Local Open Scope py_scope.

(** [np.zeros(n)], [np.full(n, v)] *)
Definition np_full {A} (n : Z) (v : A) : M R (list A) :=
  if n <? 0 then raise (ValueError NegativeDimensions)
  else ret (replicate (Z.to_nat n) v).

(** [np.empty(n)]: cell [i] holds what the memory held, [memory i]. *)
Definition np_empty (memory : nat -> Q) (n : Z) : M R (list Q) :=
  if n <? 0 then raise (ValueError NegativeDimensions)
  else ret (map memory (seq 0 (Z.to_nat n))).

(** [(mask).sum()] as the [size] of a draw *)
Definition sum_mask (mask : list bool) : Z := Z.of_nat (count_true mask).

(** The loop over the defaulted loans (source lines 96 to 104). *)
Fixpoint default_dates (origination_date maturity_date : list date)
    (default_indices : list nat) (default_date : list (option date))
    : M R (list (option date)) :=
  match default_indices with
  | [] => ret default_date
  | idx :: rest =>
      start <~ lift IndexError (origination_date !! idx) ;;
      mat <~ lift IndexError (maturity_date !! idx) ;;
      let end_ := Z.min today mat in
      if end_ <=? start then
        default_dates origination_date maturity_date rest
          (series_set default_date idx None)
      else
        let delta_days := end_ - start in
        offset <~ integers1 0 (delta_days + 1) ;;
        default_dates origination_date maturity_date rest
          (series_set default_date idx (Some (start + offset)))
  end.

(** [generate_loan_portfolio], from the first draw to [return df]
    (source lines 19 to 151), with every local in scope at the end. *)
Definition portfolio (memory : nat -> Q) (n_loans : Z) : M R Locals :=
  (* Basic IDs *)
  loan_id <~ arange 1 (n_loans + 1) ;;
  borrower_id <~ integers 1 (n_loans / 2 + 1) n_loans ;;
  (* Segments and countries *)
  let segments := ["Retail"; "SME"; "Corporate"] in
  segment <~ choice segments n_loans (Some [0.5; 0.3; 0.2]%Q) ;;
  let countries := ["DE"; "FR"; "IT"; "ES"; "NL"] in
  country <~ choice countries n_loans None ;;
  (* Dates *)
  origination_offset_days <~ integers 0 (5 * 365) n_loans ;;
  let origination_date := map (fun d => today - d) origination_offset_days in
  maturity_offset_years <~ integers 1 10 n_loans ;;
  let maturity_date :=
    zip_with (fun od y => od + y * 365) origination_date maturity_offset_years in
  (* Currency *)
  let currencies := ["EUR"; "USD"; "GBP"] in
  currency <~ choice currencies n_loans (Some [0.8; 0.15; 0.05]%Q) ;;
  (* Interest rates *)
  let base_rate := 0.02%Q in
  spread_retail <~ normal 0.02 0.005 n_loans ;;
  spread_sme <~ normal 0.03 0.007 n_loans ;;
  spread_corp <~ normal 0.015 0.004 n_loans ;;
  interest_rate <~ np_empty memory n_loans ;;
  v <~ getmask spread_retail (eq_str segment "Retail") ;;
  interest_rate <~ setmask interest_rate (eq_str segment "Retail") (map (Qplus base_rate) v) ;;
  v <~ getmask spread_sme (eq_str segment "SME") ;;
  interest_rate <~ setmask interest_rate (eq_str segment "SME") (map (Qplus base_rate) v) ;;
  v <~ getmask spread_corp (eq_str segment "Corporate") ;;
  interest_rate <~ setmask interest_rate (eq_str segment "Corporate") (map (Qplus base_rate) v) ;;
  (* PD *)
  pd_retail <~ beta 1.5 40 n_loans ;;
  pd_sme <~ beta 2.0 25 n_loans ;;
  pd_corp <~ beta 1.2 35 n_loans ;;
  pd_1y <~ np_empty memory n_loans ;;
  v <~ getmask pd_retail (eq_str segment "Retail") ;;
  pd_1y <~ setmask pd_1y (eq_str segment "Retail") v ;;
  v <~ getmask pd_sme (eq_str segment "SME") ;;
  pd_1y <~ setmask pd_1y (eq_str segment "SME") v ;;
  v <~ getmask pd_corp (eq_str segment "Corporate") ;;
  pd_1y <~ setmask pd_1y (eq_str segment "Corporate") v ;;
  (* LGD, EAD *)
  lgd <~ uniform 0.2 0.7 n_loans ;;
  x <~ normal 10 1.0 n_loans ;;
  let ead := map (np_exp R) x in
  (* Collateral and LTV *)
  has_collateral <~ choice [0; 1] n_loans (Some [0.3; 0.7]%Q) ;;
  ltv_target <~ np_empty memory n_loans ;;
  v <~ uniform 0.3 0.8 (sum_mask (eq_str segment "Retail")) ;;
  ltv_target <~ setmask ltv_target (eq_str segment "Retail") v ;;
  v <~ uniform 0.4 0.9 (sum_mask (eq_str segment "SME")) ;;
  ltv_target <~ setmask ltv_target (eq_str segment "SME") v ;;
  v <~ uniform 0.2 0.9 (sum_mask (eq_str segment "Corporate")) ;;
  ltv_target <~ setmask ltv_target (eq_str segment "Corporate") v ;;
  collateral_value <~ np_full n_loans 0%Q ;;
  e <~ getmask ead (eq_int has_collateral 1) ;;
  t <~ getmask ltv_target (eq_int has_collateral 1) ;;
  v <~ elementwise Qdiv e t ;;
  collateral_value <~ setmask collateral_value (eq_int has_collateral 1) v ;;
  ltv <~ np_full n_loans None ;;
  let mask_coll := map (Qlt_bool 0) collateral_value in
  e <~ getmask ead mask_coll ;;
  c <~ getmask collateral_value mask_coll ;;
  v <~ elementwise (fun x y => Some (x / y)%Q) e c ;;
  ltv <~ setmask ltv mask_coll v ;;
  (* Defaults *)
  is_default <~ binomial 1 pd_1y ;;
  let default_date := replicate (Z.to_nat n_loans) None in
  let default_indices := nonzero (eq_int is_default 1) in
  default_date <~ default_dates origination_date maturity_date default_indices default_date ;;
  (* Days past due *)
  days_past_due <~ np_full n_loans 0 ;;
  v <~ integers 90 361 (sum_mask (eq_int is_default 1)) ;;
  days_past_due <~ setmask days_past_due (eq_int is_default 1) v ;;
  v <~ integers 0 30 (sum_mask (eq_int is_default 0)) ;;
  days_past_due <~ setmask days_past_due (eq_int is_default 0) v ;;
  (* Provisions *)
  v <~ elementwise Qmult pd_1y lgd ;;
  expected_loss <~ elementwise Qmult v ead ;;
  noise <~ uniform 0.8 1.2 n_loans ;;
  provision_amount <~ elementwise Qmult expected_loss noise ;;
  (* Internal rating *)
  internal_rating <~ cut pd_1y rating_bins rating_labels true ;;
  df <~ mk_DataFrame
    [ ("loan_id", IntColumn loan_id);
      ("borrower_id", IntColumn borrower_id);
      ("segment", TextColumn segment);
      ("country", TextColumn country);
      ("origination_date", DateColumn (map Some origination_date));
      ("maturity_date", DateColumn (map Some maturity_date));
      ("currency", TextColumn currency);
      ("interest_rate", FloatColumn (map Some interest_rate));
      ("pd_1y", FloatColumn (map Some pd_1y));
      ("lgd", FloatColumn (map Some lgd));
      ("ead", FloatColumn (map Some ead));
      ("collateral_value", FloatColumn (map Some collateral_value));
      ("ltv", FloatColumn ltv);
      ("is_default", IntColumn is_default);
      ("default_date", DateColumn default_date);
      ("days_past_due", IntColumn days_past_due);
      ("provision_amount", FloatColumn (map Some provision_amount));
      ("internal_rating", CategoricalColumn internal_rating) ] ;;
  df <~ to_pure_date "origination_date" df ;;
  df <~ to_pure_date "maturity_date" df ;;
  df <~ to_pure_date "default_date" df ;;
  ret {| loan_id := loan_id; borrower_id := borrower_id; segment := segment;
         country := country; origination_offset_days := origination_offset_days;
         origination_date := origination_date;
         maturity_offset_years := maturity_offset_years;
         maturity_date := maturity_date; currency := currency;
         interest_rate := interest_rate; pd_1y := pd_1y; lgd := lgd; ead := ead;
         has_collateral := has_collateral; ltv_target := ltv_target;
         collateral_value := collateral_value; ltv := ltv;
         is_default := is_default; default_date := default_date;
         days_past_due := days_past_due; expected_loss := expected_loss;
         provision_amount := provision_amount;
         internal_rating := internal_rating; df := df |}.
End Routine.

(** The loan counts whose arrays can be built: the size in bytes fits
    [intp] and the host holds the array. *)
Definition fits (R : Runtime) (n : Z) : Prop :=
  8 * n <= intp_max /\ n <= Z.pos (array_limit R).

(** What a call gives its caller: the value or the exception, and how many
    variates had been drawn by then. *)
Inductive result (A : Type) : Type :=
  | Success (a : A) (draws : nat)
  | Failure (e : exn) (draws : nat).
Arguments Success {A} a draws.
Arguments Failure {A} e draws.

Definition result_map {A B} (f : A -> B) (r : result A) : result B :=
  match r with
  | Success a k => Success (f a) k
  | Failure e k => Failure e k
  end.

Section Entry.
Context (R : Runtime).

(** Line 17 and then the body: a seed that is refused ends the call. *)
Definition generate_locals (memory : nat -> Q) (n_loans random_seed : Z)
    : result Locals :=
  match default_rng (R := R) random_seed with
  | inl e => Failure e 0
  | inr st =>
      match portfolio memory n_loans st with
      | Returned l st' => Success l (consumed st')
      | Raised e st' => Failure e (consumed st')
      end
  end.

Definition generate_loan_portfolio (memory : nat -> Q) (n_loans random_seed : Z)
    : result DataFrame :=
  result_map df (generate_locals memory n_loans random_seed).
End Entry.

(** ** A small runtime on which the routine computes

    A counter stands for the bit generator; every sampler reads the counter
    and steps it.  It satisfies [Lawful] and is what the concrete runs below
    are evaluated on. *)

Module Counter.
Definition runtime : Runtime := {|
  bitgen := Z;
  seed_bitgen := fun seed => seed;
  bounded_uint64 := fun rng g => (g mod (rng + 1), g + 1);
  next_double := fun g => (Qmake (g mod 10) 10, g + 1);
  standard_normal := fun g => (Qmake (g mod 5 - 2) 2, g + 1);
  beta_variate := fun _ _ g => (Qmake (g mod 7) 100, g + 1);
  binomial_variate := fun n _ g => (Z.min n (g mod 2), g + 1);
  np_exp := fun x => (1 + x * x)%Q;
  array_limit := 1048576
|}.

(** Two contents of the memory that differ in every cell. *)
Definition memory : nat -> Q := fun i => Qmake (- Z.of_nat i - 1) 1.
Definition other_memory : nat -> Q := fun i => Qmake (Z.of_nat i + 7) 3.

(** The same runtime with a Beta sampler that returns the binary64 [0.01],
    an inner edge of the rating table, at every draw. *)
Definition on_the_edge : Runtime := {|
  bitgen := Z;
  seed_bitgen := fun seed => seed;
  bounded_uint64 := fun rng g => (g mod (rng + 1), g + 1);
  next_double := fun g => (Qmake (g mod 10) 10, g + 1);
  standard_normal := fun g => (Qmake (g mod 5 - 2) 2, g + 1);
  beta_variate := fun _ _ g => (f64_0_01, g + 1);
  binomial_variate := fun n _ g => (Z.min n (g mod 2), g + 1);
  np_exp := fun x => (1 + x * x)%Q;
  array_limit := 1048576
|}.
End Counter.

(** ** Reasoning about a computation in [M]

    [wp m post st]: from [st], [m] returns, and its value and final state
    satisfy [post].  [yields m P]: from every state [m] returns a value that
    satisfies [P]. *)

Section Logic.
Context {R : Runtime}.

Definition wp {A} (m : M R A) (post : A -> state R -> Prop) (st : state R) : Prop :=
  match m st with
  | Returned a st' => post a st'
  | Raised _ _ => False
  end.

Definition yields {A} (m : M R A) (P : A -> Prop) : Prop :=
  forall st, wp m (fun a _ => P a) st.

(** [agree m1 m2 P]: from every state both return, the same value in the
    same final state, and the value satisfies [P]. *)
Definition agree {A} (m1 m2 : M R A) (P : A -> Prop) : Prop :=
  forall st,
    match m1 st, m2 st with
    | Returned a1 st1, Returned a2 st2 => a1 = a2 /\ st1 = st2 /\ P a1
    | _, _ => False
    end.
End Logic.

(** ** What holds of the locals when the routine returns *)

(** The value that the loop leaves for a defaulted loan that was originated
    on [od] and matures on [md]: nothing when the window is empty, and
    otherwise [od] plus what [rng.integers(0, delta_days + 1)] returned in
    the state of the generator in which the loop reached the loan. *)
Definition dated (R : Runtime) (od md : date) (v : option date) : Prop :=
  match v with
  | None => Z.min today md <= od
  | Some d =>
      od < Z.min today md /\
      exists (offset : Z) (st st' : state R),
        integers1 0 (Z.min today md - od + 1) st = Returned offset st' /\
        0 <= offset <= Z.min today md - od /\ d = od + offset
  end.

(** The range from which the target LTV of a segment is drawn. *)
Definition target_range (s : string) (t : Q) : Prop :=
  (s = "Retail" -> 0.3 <= t /\ t <= 0.8)%Q /\
  (s = "SME" -> 0.4 <= t /\ t <= 0.9)%Q /\
  (s = "Corporate" -> 0.2 <= t /\ t <= 0.9)%Q.

Record Generated (R : Runtime) (n : Z) (l : Locals) : Prop := {
  gen_loan_id : loan_id l = range_values 1 (n + 1);
  gen_len_loan_id : length (loan_id l) = Z.to_nat n;
  gen_len_borrower_id : length (borrower_id l) = Z.to_nat n;
  gen_len_origination_date : length (origination_date l) = Z.to_nat n;
  gen_len_maturity_date : length (maturity_date l) = Z.to_nat n;
  gen_len_collateral_value : length (collateral_value l) = Z.to_nat n;
  gen_len_ltv : length (ltv l) = Z.to_nat n;
  gen_len_expected_loss : length (expected_loss l) = Z.to_nat n;
  gen_len_internal_rating : length (internal_rating l) = Z.to_nat n;
  gen_len_segment : length (segment l) = Z.to_nat n;
  gen_len_country : length (country l) = Z.to_nat n;
  gen_len_offset_days : length (origination_offset_days l) = Z.to_nat n;
  gen_len_offset_years : length (maturity_offset_years l) = Z.to_nat n;
  gen_len_currency : length (currency l) = Z.to_nat n;
  gen_len_interest_rate : length (interest_rate l) = Z.to_nat n;
  gen_len_pd_1y : length (pd_1y l) = Z.to_nat n;
  gen_len_lgd : length (lgd l) = Z.to_nat n;
  gen_len_ead : length (ead l) = Z.to_nat n;
  gen_len_has_collateral : length (has_collateral l) = Z.to_nat n;
  gen_len_ltv_target : length (ltv_target l) = Z.to_nat n;
  gen_len_is_default : length (is_default l) = Z.to_nat n;
  gen_len_default_date : length (default_date l) = Z.to_nat n;
  gen_len_days_past_due : length (days_past_due l) = Z.to_nat n;
  gen_len_provision_amount : length (provision_amount l) = Z.to_nat n;
  gen_borrower_id : Forall (fun b => 1 <= b < n / 2 + 1) (borrower_id l);
  gen_segment : Forall (fun s => s ∈ ["Retail"; "SME"; "Corporate"]) (segment l);
  gen_offset_days : Forall (fun d => 0 <= d < 5 * 365) (origination_offset_days l);
  gen_origination_date :
    origination_date l = map (fun d => today - d) (origination_offset_days l);
  gen_offset_years : Forall (fun y => 1 <= y < 10) (maturity_offset_years l);
  gen_maturity_date :
    maturity_date l =
    zip_with (fun od y => od + y * 365) (origination_date l) (maturity_offset_years l);
  gen_pd_1y : Forall (fun p => 0 <= p /\ p <= 1)%Q (pd_1y l);
  gen_ead : Forall (fun e => 0 < e)%Q (ead l);
  gen_has_collateral : Forall (fun h => h ∈ [0; 1]) (has_collateral l);
  gen_ltv_target : Forall2 target_range (segment l) (ltv_target l);
  gen_collateral_value :
    collateral_value l =
    select (eq_int (has_collateral l) 1)
      (zip_with Qdiv (ead l) (ltv_target l)) (replicate (Z.to_nat n) 0%Q);
  gen_ltv :
    ltv l =
    select (map (Qlt_bool 0) (collateral_value l))
      (zip_with (fun x y => Some (x / y)%Q) (ead l) (collateral_value l))
      (replicate (Z.to_nat n) None);
  gen_is_default : Forall (fun k => 0 <= k <= 1) (is_default l);
  gen_default_date : forall (i : nat) od md k,
    origination_date l !! i = Some od -> maturity_date l !! i = Some md ->
    is_default l !! i = Some k ->
    exists v, default_date l !! i = Some v /\
              (k = 1 -> dated R od md v) /\ (k <> 1 -> v = None);
  gen_internal_rating :
    internal_rating l = map (cut1 rating_bins rating_labels true) (pd_1y l);
  gen_df :
    df l =
    [ ("loan_id", IntColumn (loan_id l));
      ("borrower_id", IntColumn (borrower_id l));
      ("segment", TextColumn (segment l));
      ("country", TextColumn (country l));
      ("origination_date", DateColumn (map Some (origination_date l)));
      ("maturity_date", DateColumn (map Some (maturity_date l)));
      ("currency", TextColumn (currency l));
      ("interest_rate", FloatColumn (map Some (interest_rate l)));
      ("pd_1y", FloatColumn (map Some (pd_1y l)));
      ("lgd", FloatColumn (map Some (lgd l)));
      ("ead", FloatColumn (map Some (ead l)));
      ("collateral_value", FloatColumn (map Some (collateral_value l)));
      ("ltv", FloatColumn (ltv l));
      ("is_default", IntColumn (is_default l));
      ("default_date", DateColumn (default_date l));
      ("days_past_due", IntColumn (days_past_due l));
      ("provision_amount", FloatColumn (map Some (provision_amount l)));
      ("internal_rating", CategoricalColumn (internal_rating l)) ]
}.

(** ** The rating table, twice

    [rating_table] is the table that [pd.cut] with its default [right=True]
    and [include_lowest=True] implements on [rating_bins]: every bucket is
    closed on the right, and the edges are the binary64 values that the code
    compares with.  [spec_rating_table] is the table as the specification
    words it: every bucket closed on the left, with the edges 0.5 %, 1 %,
    2 % and 5 %. *)

Definition rating_table (p : Q) : string :=
  if Qle_bool p f64_0_005 then "AAA"
  else if Qle_bool p f64_0_01 then "AA"
  else if Qle_bool p f64_0_02 then "A"
  else if Qle_bool p f64_0_05 then "BBB"
  else "BB/B".

Definition spec_rating_table (p : Q) : string :=
  if Qlt_bool p 0.005 then "AAA"
  else if Qlt_bool p 0.01 then "AA"
  else if Qlt_bool p 0.02 then "A"
  else if Qlt_bool p 0.05 then "BBB"
  else "BB/B".

(** The header of the data model, in column order. *)
Definition header : list string :=
  [ "loan_id"; "borrower_id"; "segment"; "country"; "origination_date";
    "maturity_date"; "currency"; "interest_rate"; "pd_1y"; "lgd"; "ead";
    "collateral_value"; "ltv"; "is_default"; "default_date"; "days_past_due";
    "provision_amount"; "internal_rating" ].

(** ** Counting the variates of a computation *)

Section Accounting.
Context {R : Runtime}.

(** [spends m P]: from every state [m] returns, and its value [a] and the
    number [k] of variates it drew satisfy [P a k]. *)
Definition spends {A} (m : M R A) (P : A -> nat -> Prop) : Prop :=
  forall st,
    match m st with
    | Returned a st' => exists k, consumed st' = (consumed st + k)%nat /\ P a k
    | Raised _ _ => False
    end.

(** [costs m c]: whenever [m] returns, it has drawn [c] variates. *)
Definition costs {A} (m : M R A) (c : nat) : Prop :=
  forall st a st', m st = Returned a st' -> consumed st' = (consumed st + c)%nat.
End Accounting.

(** The rows of [default_date] that hold a date. *)
Definition is_dated (v : option Z) : bool :=
  match v with
  | Some _ => true
  | None => false
  end.
Definition count_dated (dd : list (option Z)) : nat := length (List.filter is_dated dd).

(** ** What else holds of the locals when the routine returns *)

Record Detailed (n : Z) (l : Locals) : Prop := {
  det_country : Forall (fun c => c ∈ ["DE"; "FR"; "IT"; "ES"; "NL"]) (country l);
  det_currency : Forall (fun c => c ∈ ["EUR"; "USD"; "GBP"]) (currency l);
  det_lgd : Forall (fun x => 0.2 <= x /\ x <= 0.7)%Q (lgd l);
  det_days_past_due :
    Forall2 (fun flag d => (flag = 1 -> 90 <= d < 361) /\ (flag = 0 -> 0 <= d < 30))
      (is_default l) (days_past_due l);
  det_expected_loss :
    expected_loss l = zip_with Qmult (zip_with Qmult (pd_1y l) (lgd l)) (ead l);
  det_provision_amount :
    exists noise,
      length noise = Z.to_nat n /\
      Forall (fun x => 0.8 <= x /\ x <= 1.2)%Q noise /\
      provision_amount l = zip_with Qmult (expected_loss l) noise
}.

(** A column without [nan], [NaT] or a missing category. *)
Definition complete (c : column) : Prop :=
  match c with
  | IntColumn _ | TextColumn _ => True
  | FloatColumn v => Forall (fun x => x <> None) v
  | DateColumn v => Forall (fun x => x <> None) v
  | CategoricalColumn v => Forall (fun x => x <> None) v
  end.

(** ** The script around the routine (source lines 7, 8 and 154 to 166)

    [main] creates the data directory, calls the routine with 1000 loans and
    seed 42, writes the frame twice and prints the two paths.  The host on
    which it runs is a file system, the fact whether an Excel writer engine
    can be imported, and the lines printed so far.  Every directory is
    writable and the disk is never full. *)

Abbreviation path := (list string) (only parsing).

(** What a regular file holds: a table written by [to_csv] or by
    [to_excel], both without index column, or anything else. *)
Inductive content : Type :=
  | CsvTable (t : DataFrame)
  | ExcelSheet (t : DataFrame)
  | OtherContent.

Inductive entry : Type :=
  | Directory
  | File (c : content).

Inductive printed : Type :=
  | Saved (csv_path xlsx_path : list string).

Record host : Type := {
  files : list string -> option entry;
  excel_engine : bool;
  stdout : list printed
}.

(** What ends the script early. *)
Inductive script_error : Type :=
  | FromRoutine (e : exn)      (* whatever [generate_loan_portfolio] raised *)
  | FileExistsError           (* mkdir: the path is there and is no directory *)
  | FileNotFoundError         (* mkdir: the parent is missing *)
  | NotADirectoryError        (* mkdir: the parent is a regular file *)
  | NoParentDirectory         (* pandas: cannot save file into a non-existent directory *)
  | IsADirectoryError         (* open for writing: the path is a directory *)
  | SheetTooLarge             (* to_excel: more than 2^20 rows or 2^14 columns *)
  | ImportError.              (* to_excel: no writer engine installed *)

Definition parent (p : list string) : list string := removelast p.

Definition same_path (p q : list string) : bool :=
  if List.list_eq_dec string_dec p q then true else false.

Definition put (p : list string) (e : entry) (fs : list string -> option entry)
    : list string -> option entry :=
  fun q => if same_path q p then Some e else fs q.

(** [p.mkdir(exist_ok=True)]: parents are not created; an existing
    directory is accepted. *)
Definition mkdir_exist_ok (p : list string) (fs : list string -> option entry)
    : script_error + (list string -> option entry) :=
  match fs (parent p) with
  | None => inl FileNotFoundError
  | Some (File _) => inl NotADirectoryError
  | Some Directory =>
      match fs p with
      | None => inr (put p Directory fs)
      | Some Directory => inr fs
      | Some (File _) => inl FileExistsError
      end
  end.

(** Opening [p] for writing and writing [c]: a regular file is replaced. *)
Definition write_file (p : list string) (c : content) (fs : list string -> option entry)
    : script_error + (list string -> option entry) :=
  match fs (parent p) with
  | Some Directory =>
      match fs p with
      | Some Directory => inl IsADirectoryError
      | _ => inr (put p (File c) fs)
      end
  | _ => inl NoParentDirectory
  end.

(** [df.to_csv(p, index=False)] *)
Definition to_csv (t : DataFrame) (p : list string) (fs : list string -> option entry)
    : script_error + (list string -> option entry) :=
  write_file p (CsvTable t) fs.

(** [df.to_excel(p, index=False)]: the size of the sheet is checked, then
    the engine is imported, then the file is written. *)
Definition to_excel (engine : bool) (t : DataFrame) (p : list string)
    (fs : list string -> option entry) : script_error + (list string -> option entry) :=
  if (2 ^ 20 <? Z.of_nat (nrows t)) || (2 ^ 14 <? Z.of_nat (length t))
  then inl SheetTooLarge
  else if negb engine then inl ImportError
  else write_file p (ExcelSheet t) fs.

Definition with_files (fs : list string -> option entry) (h : host) : host :=
  {| files := fs; excel_engine := excel_engine h; stdout := stdout h |}.

(** [DATA_DIR] and the two files, below [base_dir], which is [BASE_DIR], the
    directory two levels above the script. *)
Definition data_dir (base_dir : list string) : list string :=
  (base_dir ++ ["data"])%list.
Definition csv_path (base_dir : list string) : list string :=
  (data_dir base_dir ++ ["loan_portfolio.csv"])%list.
Definition xlsx_path (base_dir : list string) : list string :=
  (data_dir base_dir ++ ["loan_portfolio.xlsx"])%list.

Section Script.
Context (R : Runtime) (memory : nat -> Q).

Definition main (base_dir : list string) (h : host) : option script_error * host :=
  match mkdir_exist_ok (data_dir base_dir) (files h) with
  | inl e => (Some e, h)
  | inr fs1 =>
      match generate_loan_portfolio R memory 1000 42 with
      | Failure e _ => (Some (FromRoutine e), with_files fs1 h)
      | Success frame _ =>
          match to_csv frame (csv_path base_dir) fs1 with
          | inl e => (Some e, with_files fs1 h)
          | inr fs2 =>
              match to_excel (excel_engine h) frame (xlsx_path base_dir) fs2 with
              | inl e => (Some e, with_files fs2 h)
              | inr fs3 =>
                  (None,
                   {| files := fs3; excel_engine := excel_engine h;
                      stdout :=
                        (stdout h ++ [Saved (csv_path base_dir) (xlsx_path base_dir)])%list
                   |})
              end
          end
      end
  end.
End Script.

(** Hosts for trying the script: the project directory [/srv/project]
    exists and holds nothing, with or without an engine; and one where a
    regular file is called [data]. *)
Definition fresh_host (engine : bool) : host := {|
  files := fun p => if same_path p ["srv"; "project"] then Some Directory else None;
  excel_engine := engine;
  stdout := []
|}.
Definition blocked_host : host := {|
  files := fun p =>
    if same_path p ["srv"; "project"] then Some Directory
    else if same_path p ["srv"; "project"; "data"] then Some (File OtherContent)
    else None;
  excel_engine := true;
  stdout := []
|}.

(** The position of a label in [rating_labels], from best to worst; a
    string that is no label comes last. *)
Fixpoint position (s : string) (labels : list string) : nat :=
  match labels with
  | [] => O
  | x :: labels' => if String.eqb x s then O else S (position s labels')
  end.
Definition rating_rank (s : string) : nat := position s rating_labels.

(** * Properties *)

(** ** Arrays *)

Section ArrayFacts.
Context {A : Type}.
Implicit Types (mask : list bool) (a v vals : list A).

Lemma length_compress mask a :
  length a = length mask -> length (compress mask a) = count_true mask.
Proof.
  revert a; induction mask as [|b mask IH]; intros [|x a] Hlen; simplify_eq/=; try done.
  destruct b; simpl; rewrite IH; done.
Qed.

Lemma length_scatter mask a vals : length (scatter mask a vals) = length a.
Proof.
  revert a vals; induction mask as [|b mask IH]; intros [|x a] vals; simpl; try done.
  destruct b; [destruct vals|]; simpl; rewrite IH; done.
Qed.

Lemma elem_of_compress mask a x : x ∈ compress mask a -> x ∈ a.
Proof.
  revert a; induction mask as [|b mask IH]; intros [|y a]; simpl;
    try (by rewrite elem_of_nil).
  destruct b; rewrite ?elem_of_cons; intuition.
Qed.

Lemma lookup_scatter_false mask a vals i :
  mask !! i = Some false -> scatter mask a vals !! i = a !! i.
Proof.
  revert a vals i; induction mask as [|b mask IH]; intros [|x a] vals [|i] Hm;
    simplify_eq/=; try done.
  - destruct b; [destruct vals|]; simpl; auto.
Qed.

Lemma lookup_scatter_true mask a vals i :
  length a = length mask -> length vals = count_true mask ->
  mask !! i = Some true -> exists x, scatter mask a vals !! i = Some x /\ x ∈ vals.
Proof.
  revert a vals i; induction mask as [|b mask IH]; intros [|x a] vals i Ha Hv Hm;
    simplify_eq/=; try done.
  destruct b.
  - destruct vals as [|v vals]; simplify_eq/=.
    destruct i as [|i]; simplify_eq/=.
    + exists v. split; [done | left].
    + destruct (IH a vals i) as (y & ? & ?); try done.
      exists y. split; [done | by right].
  - destruct i as [|i]; simplify_eq/=. by apply IH.
Qed.

Lemma lookup_scatter_true_same mask a a' vals i :
  length a = length mask -> length a' = length mask ->
  length vals = count_true mask -> mask !! i = Some true ->
  scatter mask a vals !! i = scatter mask a' vals !! i.
Proof.
  revert a a' vals i; induction mask as [|b mask IH];
    intros [|x a] [|x' a'] vals i Ha Ha' Hv Hm; simplify_eq/=; try done.
  destruct b.
  - destruct vals as [|v vals]; simplify_eq/=.
    destruct i as [|i]; simplify_eq/=; [done|]. by apply IH.
  - destruct i as [|i]; simplify_eq/=. by apply IH.
Qed.

Lemma scatter_compress mask v a :
  length v = length mask -> length a = length mask ->
  scatter mask a (compress mask v) = select mask v a.
Proof.
  revert v a; induction mask as [|b mask IH]; intros [|x v] [|y a] Hv Ha;
    simplify_eq/=; try done.
  destruct b; simpl; rewrite IH; done.
Qed.

Lemma lookup_select mask v a (i : nat) (b : bool) x y :
  mask !! i = Some b -> v !! i = Some x -> a !! i = Some y ->
  select mask v a !! i = Some (if b then x else y).
Proof.
  revert v a i; induction mask as [|b' mask IH]; intros [|x' v] [|y' a] [|i] Hm Hv Ha;
    simplify_eq/=; try done.
  by apply IH.
Qed.

Lemma nonzero_from_spec mask k i :
  i ∈ nonzero_from k mask <-> (k <= i)%nat /\ mask !! (i - k)%nat = Some true.
Proof.
  revert k; induction mask as [|b mask IH]; intros k; simpl.
  - rewrite elem_of_nil, lookup_nil. intuition discriminate.
  - assert (Hstep : forall j, (S k <= j)%nat ->
               (b :: mask) !! (j - k)%nat = mask !! (j - S k)%nat).
    { intros j Hj. replace (j - k)%nat with (S (j - S k)) by lia. done. }
    destruct b; rewrite ?elem_of_cons, IH.
    + split.
      * intros [->|[Hle Hm]].
        -- split; [lia|]. by rewrite Nat.sub_diag.
        -- split; [lia|]. by rewrite Hstep.
      * intros [Hle Hm]. destruct (decide (i = k)) as [->|Hne]; [by left|right].
        split; [lia|]. rewrite <- Hstep; [done | lia].
    + split.
      * intros [Hle Hm]. split; [lia|]. by rewrite Hstep.
      * intros [Hle Hm]. destruct (decide (i = k)) as [->|Hne].
        -- rewrite Nat.sub_diag in Hm. done.
        -- split; [lia|]. rewrite <- Hstep; [done | lia].
Qed.

Lemma elem_of_nonzero mask i : i ∈ nonzero mask <-> mask !! i = Some true.
Proof.
  unfold nonzero. rewrite nonzero_from_spec, Nat.sub_0_r. split; [tauto | split; [lia | done]].
Qed.

Lemma lookup_series_set_eq (s : list A) idx x :
  (idx < length s)%nat -> series_set s idx x !! idx = Some x.
Proof.
  intros H. unfold series_set. rewrite (proj2 (Nat.ltb_lt _ _) H).
  by apply list_lookup_insert_eq.
Qed.

Lemma lookup_series_set_ne (s : list A) idx j x :
  (idx < length s)%nat -> idx <> j -> series_set s idx x !! j = s !! j.
Proof.
  intros H Hne. unfold series_set. rewrite (proj2 (Nat.ltb_lt _ _) H).
  by apply list_lookup_insert_ne.
Qed.

Lemma length_series_set (s : list A) idx x :
  (idx < length s)%nat -> length (series_set s idx x) = length s.
Proof.
  intros H. unfold series_set. rewrite (proj2 (Nat.ltb_lt _ _) H).
  apply length_insert.
Qed.
End ArrayFacts.

Lemma compress_zip_with {A B C} (f : A -> B -> C) mask (x : list A) (y : list B) :
  compress mask (zip_with f x y) = zip_with f (compress mask x) (compress mask y).
Proof.
  revert x y; induction mask as [|b mask IH]; intros [|x1 x] [|y1 y]; simpl; try done.
  - destruct b; simpl; by destruct (compress mask x).
  - destruct b; simpl; by rewrite IH.
Qed.

Lemma length_range_values start stop :
  length (range_values start stop) = Z.to_nat (stop - start).
Proof. unfold range_values. by rewrite length_map, length_seq. Qed.


(** ** The monad *)

Section MonadFacts.
Context {R : Runtime}.

Lemma yields_ret {A} (a : A) (P : A -> Prop) : P a -> yields (R := R) (ret a) P.
Proof. intros H st. exact H. Qed.

Lemma yields_bind {A B} (m : M R A) (k : A -> M R B) (P : A -> Prop) (Q : B -> Prop) :
  yields m P -> (forall a, P a -> yields (k a) Q) -> yields (bind m k) Q.
Proof.
  intros Hm Hk st. specialize (Hm st). unfold wp, bind in *.
  destruct (m st) as [a st'|]; [|done]. apply (Hk a Hm st').
Qed.

Lemma yields_mono {A} (m : M R A) (P Q : A -> Prop) :
  yields m P -> (forall a, P a -> Q a) -> yields m Q.
Proof.
  intros Hm HPQ st. specialize (Hm st). unfold wp in *.
  destruct (m st); [auto | done].
Qed.

Lemma yields_returned {A} (m : M R A) (P : A -> Prop) st :
  yields m P -> exists a st', m st = Returned a st' /\ P a.
Proof.
  intros Hm. specialize (Hm st). unfold wp in Hm.
  destruct (m st) as [a st'|]; [eauto | done].
Qed.

(** What a computation yields was returned from some state. *)
Lemma yields_witnessed {A} (m : M R A) (P : A -> Prop) :
  yields m P -> yields m (fun a => P a /\ exists st st', m st = Returned a st').
Proof.
  intros Hm st. specialize (Hm st). unfold wp in *.
  destruct (m st) as [a st'|] eqn:E; [|done]. split; [done | eauto].
Qed.

Lemma yields_lift {A} (e : exn) (o : option A) (a : A) :
  o = Some a -> yields (R := R) (lift e o) (fun x => x = a).
Proof. intros -> st. reflexivity. Qed.

Lemma yields_draw {A} (sampler : bitgen R -> A * bitgen R) (P : A -> Prop) :
  (forall g, P (sampler g).1) -> yields (draw sampler) P.
Proof.
  intros H st. unfold wp, draw. specialize (H (gen st)).
  destruct (sampler (gen st)); exact H.
Qed.

Lemma yields_fill {A} (k : nat) (m : M R A) (P : A -> Prop) :
  yields m P -> yields (fill k m) (fun v => length v = k /\ Forall P v).
Proof.
  intros Hm. induction k as [|k IH]; simpl.
  - apply yields_ret. split; [done | constructor].
  - eapply yields_bind; [exact Hm|]. intros x Hx.
    eapply yields_bind; [exact IH|]. intros xs [Hlen Hall].
    apply yields_ret. split; [simpl; congruence | by constructor].
Qed.

Lemma yields_for_each {A B} (f : A -> M R B) (xs : list A) (P : A -> B -> Prop) :
  (forall x, x ∈ xs -> yields (f x) (P x)) ->
  yields (for_each f xs) (fun ys => Forall2 P xs ys).
Proof.
  induction xs as [|x xs IH]; intros Hf; simpl.
  - apply yields_ret. constructor.
  - eapply yields_bind; [apply Hf; left|]. intros y Hy.
    eapply yields_bind; [apply IH; intros; apply Hf; by right|]. intros ys Hys.
    apply yields_ret. by constructor.
Qed.

Lemma agree_same {A} (m : M R A) (P : A -> Prop) : yields m P -> agree m m P.
Proof.
  intros Hm st. specialize (Hm st). unfold wp in Hm.
  destruct (m st); [done | done].
Qed.

Lemma agree_yields {A} (m1 m2 : M R A) (P : A -> Prop) : agree m1 m2 P -> yields m1 P.
Proof.
  intros H st. specialize (H st). unfold wp.
  destruct (m1 st), (m2 st); try done. by destruct H as (_ & _ & H).
Qed.

Lemma agree_eq {A} (m1 m2 : M R A) (P : A -> Prop) :
  agree m1 m2 P -> forall st, m1 st = m2 st.
Proof.
  intros H st. specialize (H st).
  destruct (m1 st), (m2 st); try done. destruct H as (-> & -> & _). done.
Qed.

Lemma agree_ret {A} (a : A) (P : A -> Prop) : P a -> agree (R := R) (ret a) (ret a) P.
Proof. intros H st. done. Qed.

Lemma agree_bind {A B} (m : M R A) (k1 k2 : A -> M R B) (P : A -> Prop) (Q : B -> Prop) :
  yields m P -> (forall a, P a -> agree (k1 a) (k2 a) Q) ->
  agree (bind m k1) (bind m k2) Q.
Proof.
  intros Hm Hk st. specialize (Hm st). unfold wp, bind in *.
  destruct (m st) as [a st'|]; [|done]. apply (Hk a Hm st').
Qed.

(** A step that returns without touching the state may differ on the two
    sides. *)
Lemma agree_pure {A B} (m1 m2 : M R A) (a1 a2 : A) (k1 k2 : A -> M R B)
    (Q : B -> Prop) :
  (forall st, m1 st = Returned a1 st) -> (forall st, m2 st = Returned a2 st) ->
  agree (k1 a1) (k2 a2) Q -> agree (bind m1 k1) (bind m2 k2) Q.
Proof.
  intros H1 H2 Hk st. unfold bind. rewrite H1, H2. apply Hk.
Qed.
End MonadFacts.

(** ** The NumPy calls *)

Lemma Qlt_bool_iff (x y : Q) : Qlt_bool x y = true <-> (x < y)%Q.
Proof.
  unfold Qlt_bool. rewrite negb_true_iff. split.
  - intros H. apply Qnot_le_lt. intros Hle. apply Qle_bool_iff in Hle. congruence.
  - intros H. destruct (Qle_bool y x) eqn:E; [|done].
    apply Qle_bool_iff in E. lra.
Qed.

Lemma Qlt_bool_false (x y : Q) : Qlt_bool x y = false <-> (y <= x)%Q.
Proof.
  unfold Qlt_bool. rewrite negb_false_iff. apply Qle_bool_iff.
Qed.

Lemma Qle_bool_false (x y : Q) : Qle_bool x y = false <-> (y < x)%Q.
Proof.
  split.
  - intros H. apply Qnot_le_lt. intros Hle. apply Qle_bool_iff in Hle. congruence.
  - intros H. destruct (Qle_bool x y) eqn:E; [|done]. apply Qle_bool_iff in E. lra.
Qed.

Lemma lookup_map {A B} (f : A -> B) (l : list A) (i : nat) :
  map f l !! i = f <$> l !! i.
Proof. apply list_lookup_fmap. Qed.

Lemma Forall_map {A B} (f : A -> B) (P : B -> Prop) (l : list A) :
  Forall P (map f l) <-> Forall (fun x => P (f x)) l.
Proof. apply (Forall_fmap f P l). Qed.

Lemma length_cumsum (p : list Q) : length (cumsum p) = length p.
Proof.
  unfold cumsum. generalize 0%Q.
  induction p as [|y p IHp]; intros acc; simpl; [done | by rewrite IHp].
Qed.

Lemma searchsorted_right_lt (cdf : list Q) (u : Q) :
  cdf <> [] -> (u < List.last cdf 0)%Q -> (searchsorted_right cdf u < length cdf)%nat.
Proof.
  unfold searchsorted_right. induction cdf as [|c cdf IH]; [done|]. intros _ Hu.
  destruct cdf as [|c' cdf].
  - simpl in *. apply Qle_bool_false in Hu. rewrite Hu. simpl. lia.
  - assert (Hrec : (length (List.filter (fun c0 => Qle_bool c0 u) (c' :: cdf))
                    < length (c' :: cdf))%nat) by (apply IH; done).
    change (List.filter (fun c0 => Qle_bool c0 u) (c :: c' :: cdf))
      with (if Qle_bool c u
            then c :: List.filter (fun c0 => Qle_bool c0 u) (c' :: cdf)
            else List.filter (fun c0 => Qle_bool c0 u) (c' :: cdf)).
    destruct (Qle_bool c u); simpl length in *; lia.
Qed.

Section NumPyFacts.
Context {R : Runtime} (HR : Lawful R).

Lemma arange_returns start stop st :
  8 * (stop - start) <= intp_max -> stop - start <= Z.pos (array_limit R) ->
  arange (R := R) start stop st = Returned (range_values start stop) st.
Proof.
  intros Hbytes Hlimit. unfold arange. cbv zeta.
  destruct (Z.ltb_spec intp_max (8 * Z.max (stop - start) 0));
    [unfold intp_max in *; lia|].
  destruct (Z.ltb_spec (Z.pos (array_limit R)) (Z.max (stop - start) 0)); [lia | done].
Qed.

Lemma yields_arange start stop :
  8 * (stop - start) <= intp_max -> stop - start <= Z.pos (array_limit R) ->
  yields (R := R) (arange start stop) (fun v => v = range_values start stop).
Proof. intros Hbytes Hlimit st. unfold wp. by rewrite arange_returns. Qed.

Lemma yields_bounded low high :
  low < high -> yields (R := R) (bounded low high) (fun x => low <= x < high).
Proof.
  intros H. apply yields_draw. intros g.
  pose proof (bounded_uint64_range R HR (high - 1 - low) g ltac:(lia)) as Hr.
  destruct (bounded_uint64 R (high - 1 - low) g) as [v g']; simpl in *. lia.
Qed.

Lemma yields_check_bounds low high :
  int64_min <= low -> high - 1 <= int64_max -> low < high ->
  yields (R := R) (check_bounds low high) (fun _ => True).
Proof.
  intros H1 H2 H3. unfold check_bounds.
  destruct (Z.ltb_spec low int64_min); [lia|].
  destruct (Z.ltb_spec int64_max (high - 1)); [lia|].
  destruct (Z.ltb_spec (high - 1) low); [lia|].
  by apply yields_ret.
Qed.

Lemma yields_integers low high size :
  0 <= size ->
  (size <> 0 -> int64_min <= low /\ high - 1 <= int64_max /\ low < high) ->
  yields (R := R) (integers low high size)
    (fun v => length v = Z.to_nat size /\ Forall (fun x => low <= x < high) v).
Proof.
  intros Hs Hb. unfold integers. destruct (Z.eqb_spec size 0) as [->|Hne].
  - apply yields_ret. split; [done | constructor].
  - destruct (Hb Hne) as (? & ? & ?).
    eapply yields_bind; [by apply yields_check_bounds|]. intros _ _.
    destruct (Z.ltb_spec size 0); [lia|].
    apply yields_fill. by apply yields_bounded.
Qed.

Lemma yields_integers1 low high :
  int64_min <= low -> high - 1 <= int64_max -> low < high ->
  yields (R := R) (integers1 low high) (fun x => low <= x < high).
Proof.
  intros. unfold integers1.
  eapply yields_bind; [by apply yields_check_bounds|]. intros _ _.
  by apply yields_bounded.
Qed.

Lemma yields_random size :
  0 <= size ->
  yields (R := R) (random size)
    (fun v => length v = Z.to_nat size /\ Forall (fun u => 0 <= u /\ u < 1)%Q v).
Proof.
  intros Hs. unfold random. destruct (Z.ltb_spec size 0); [lia|].
  apply yields_fill, yields_draw. intros g. apply (next_double_range R HR).
Qed.

Lemma getitem_in_range {A} (a : list A) (i : Z) :
  0 <= i < Z.of_nat (length a) -> exists x, getitem a i = Some x /\ x ∈ a.
Proof.
  intros Hi. unfold getitem.
  destruct (Z.ltb_spec i 0); [lia|]. destruct (Z.ltb_spec i 0); [lia|].
  destruct (lookup_lt_is_Some_2 a (Z.to_nat i)) as [x Hx]; [lia|].
  exists x. split; [done|]. by eapply list_elem_of_lookup_2.
Qed.

Lemma yields_take {A} (a : list A) (idx : list Z) :
  Forall (fun i => 0 <= i < Z.of_nat (length a)) idx ->
  yields (R := R) (take a idx) (fun v => length v = length idx /\ Forall (fun x => x ∈ a) v).
Proof.
  intros Hidx. unfold take.
  eapply yields_mono.
  - apply (yields_for_each _ idx (fun _ x => x ∈ a)).
    intros i Hi. rewrite Forall_forall in Hidx.
    destruct (getitem_in_range a i (Hidx i Hi)) as (x & -> & Hx).
    by apply yields_ret.
  - intros v Hv. split; [symmetry; by eapply Forall2_length|].
    eapply Forall2_Forall_r; [exact Hv|]. apply Forall_forall. auto.
Qed.

Lemma yields_choice_p {A} (a : list A) (size : Z) (p : list Q) :
  0 <= size -> a <> [] -> valid_p (length a) p = true ->
  Qle_bool 1 (List.last (map (fun c => c / List.last (cumsum p) 0)%Q (cumsum p)) 0%Q) = true ->
  yields (R := R) (choice a size (Some p))
    (fun v => length v = Z.to_nat size /\ Forall (fun x => x ∈ a) v).
Proof.
  intros Hs Ha Hp Hlast. unfold choice.
  destruct a as [|a0 a]; [done|]. rewrite Hp. cbn [length Nat.eqb andb].
  eapply yields_bind; [by apply yields_random|]. intros u [Hlen Hu].
  eapply yields_mono.
  - apply yields_take. apply Forall_map. eapply Forall_impl; [exact Hu|].
    intros x [_ Hx]. simpl. split; [lia|].
    apply inj_lt.
    set (cdf := map _ (cumsum p)) in *.
    assert (Hcdf : length cdf = S (length a)).
    { unfold cdf. rewrite length_map, length_cumsum.
      unfold valid_p in Hp. apply andb_prop in Hp as [Hp _]. apply andb_prop in Hp as [Hp _].
      by apply Nat.eqb_eq in Hp. }
    rewrite <- Hcdf. apply searchsorted_right_lt.
    + intros ->. done.
    + apply Qle_bool_iff in Hlast. lra.
  - intros v [Hv Hall]. split; [|done]. by rewrite Hv, length_map.
Qed.

Lemma yields_choice_uniform {A} (a : list A) (size : Z) :
  0 <= size -> a <> [] -> Z.of_nat (length a) - 1 <= int64_max ->
  yields (R := R) (choice a size None)
    (fun v => length v = Z.to_nat size /\ Forall (fun x => x ∈ a) v).
Proof.
  intros Hs Ha Hmax. unfold choice.
  destruct a as [|a0 a]; [done|]. cbn [length Nat.eqb andb].
  eapply yields_bind.
  - apply yields_integers; [done|]. intros _.
    unfold int64_min, int64_max in *. simpl length in *. lia.
  - intros idx [Hlen Hidx]. eapply yields_mono; [by apply yields_take|].
    intros v [Hv Hall]. split; [congruence | done].
Qed.

Lemma yields_normal loc scale size :
  Qlt_bool scale 0 = false -> 0 <= size ->
  yields (R := R) (normal loc scale size) (fun v => length v = Z.to_nat size).
Proof.
  intros Hsc Hs. unfold normal. rewrite Hsc. destruct (Z.ltb_spec size 0); [lia|].
  eapply yields_mono; [apply (yields_fill _ _ (fun _ => True)), yields_draw; done|].
  by intros v [? _].
Qed.

Lemma yields_beta a b size :
  Qle_bool a 0 || Qle_bool b 0 = false -> 0 <= size ->
  yields (R := R) (beta a b size)
    (fun v => length v = Z.to_nat size /\ Forall (fun x => 0 <= x /\ x <= 1)%Q v).
Proof.
  intros Hab Hs. unfold beta. rewrite Hab. destruct (Z.ltb_spec size 0); [lia|].
  apply yields_fill, yields_draw. intros g. apply (beta_variate_range R HR).
Qed.

Lemma yields_uniform low high size :
  (low <= high)%Q -> 0 <= size ->
  yields (R := R) (uniform low high size)
    (fun v => length v = Z.to_nat size /\ Forall (fun x => low <= x /\ x <= high)%Q v).
Proof.
  intros Hlh Hs. unfold uniform. destruct (Z.ltb_spec size 0); [lia|].
  apply yields_fill, yields_draw. intros g.
  pose proof (next_double_range R HR g) as [H0 H1].
  destruct (next_double R g) as [u g']; simpl in *. split; nra.
Qed.

Lemma yields_binomial n (p : list Q) :
  0 <= n -> Forall (fun x => 0 <= x /\ x <= 1)%Q p ->
  yields (R := R) (binomial n p)
    (fun v => length v = length p /\ Forall (fun k => 0 <= k <= n) v).
Proof.
  intros Hn Hp. unfold binomial.
  destruct (Z.ltb_spec n 0); [lia|]. simpl orb.
  assert (Hall : forallb (fun x => Qle_bool 0 x && Qle_bool x 1) p = true).
  { apply forallb_forall. intros x Hx. rewrite Forall_forall in Hp.
    apply list_elem_of_In in Hx. destruct (Hp x Hx) as [H0 H1].
    apply andb_true_intro. split; by apply Qle_bool_iff. }
  rewrite Hall. simpl negb. cbv iota.
  eapply yields_mono.
  - apply (yields_for_each _ p (fun _ k => 0 <= k <= n)). intros x _.
    apply yields_draw. intros g. by apply (binomial_variate_range R HR).
  - intros v Hv. split; [symmetry; by eapply Forall2_length|].
    eapply Forall2_Forall_r; [exact Hv|]. apply Forall_forall. auto.
Qed.

Lemma yields_getmask {A} (a : list A) (mask : list bool) :
  length a = length mask ->
  yields (R := R) (getmask a mask) (fun v => v = compress mask a).
Proof. intros H. unfold getmask. rewrite H, Nat.eqb_refl. by apply yields_ret. Qed.

Lemma yields_setmask {A} (a : list A) (mask : list bool) (vals : list A) :
  length a = length mask -> length vals = count_true mask ->
  yields (R := R) (setmask a mask vals) (fun v => v = scatter mask a vals).
Proof.
  intros H1 H2. unfold setmask. rewrite H1, H2, !Nat.eqb_refl. by apply yields_ret.
Qed.

Lemma setmask_returns {A} (a : list A) (mask : list bool) (vals : list A) st :
  length a = length mask -> length vals = count_true mask ->
  setmask (R := R) a mask vals st = Returned (scatter mask a vals) st.
Proof. intros H1 H2. unfold setmask. by rewrite H1, H2, !Nat.eqb_refl. Qed.

Lemma yields_elementwise {A B C} (op : A -> B -> C) (x : list A) (y : list B) :
  length x = length y ->
  yields (R := R) (elementwise op x y) (fun v => v = zip_with op x y).
Proof. intros H. unfold elementwise. rewrite H, Nat.eqb_refl. by apply yields_ret. Qed.
End NumPyFacts.

(** ** The pandas calls and the loop *)

Section PandasFacts.
Context {R : Runtime} (HR : Lawful R).

Lemma yields_np_full {A} (n : Z) (v : A) :
  0 <= n -> yields (R := R) (np_full n v) (fun r => r = replicate (Z.to_nat n) v).
Proof.
  intros H. unfold np_full. destruct (Z.ltb_spec n 0); [lia|]. by apply yields_ret.
Qed.

Lemma yields_np_empty (memory : nat -> Q) (n : Z) :
  0 <= n ->
  yields (R := R) (np_empty memory n) (fun r => r = map memory (seq 0 (Z.to_nat n))).
Proof.
  intros H. unfold np_empty. destruct (Z.ltb_spec n 0); [lia|]. by apply yields_ret.
Qed.

Lemma np_empty_returns (memory : nat -> Q) (n : Z) st :
  0 <= n ->
  np_empty (R := R) memory n st = Returned (map memory (seq 0 (Z.to_nat n))) st.
Proof. intros H. unfold np_empty. by destruct (Z.ltb_spec n 0); [lia|]. Qed.

Lemma yields_cut (x : list Q) :
  yields (R := R) (cut x rating_bins rating_labels true)
    (fun r => r = map (cut1 rating_bins rating_labels true) x).
Proof. unfold cut. by apply yields_ret. Qed.

Lemma yields_mk_DataFrame k c rest :
  forallb (fun kc => (column_length kc.2 =? column_length c)%nat) rest = true ->
  yields (R := R) (mk_DataFrame ((k, c) :: rest)) (fun r => r = (k, c) :: rest).
Proof. intros H. unfold mk_DataFrame. rewrite H. by apply yields_ret. Qed.

Lemma yields_to_pure_date name (frame : DataFrame) c :
  get_column name frame = Some c ->
  yields (R := R) (to_pure_date name frame)
    (fun r => r = set_column name (dt_date c) frame).
Proof.
  intros H. unfold to_pure_date. rewrite H.
  eapply yields_bind; [by apply yields_lift|]. intros ? ->. by apply yields_ret.
Qed.

Lemma yields_default_dates (od md : list date) (idxs : list nat) :
  Forall (fun o => today - int64_max <= o) od ->
  forall dd : list (option date),
  length od = length dd -> length md = length dd ->
  Forall (fun i => (i < length dd)%nat) idxs ->
  yields (R := R) (default_dates od md idxs dd)
    (fun r => length r = length dd /\
       forall i : nat,
         (i ∈ idxs -> forall o m, od !! i = Some o -> md !! i = Some m ->
                      exists v, r !! i = Some v /\ dated R o m v) /\
         (i ∉ idxs -> r !! i = dd !! i)).
Proof.
  intros Hod. induction idxs as [|idx rest IH]; intros dd Hlo Hlm Hidx; simpl.
  - apply yields_ret. split; [done|]. intros i. split; [|done].
    intros Hi. by apply elem_of_nil in Hi.
  - apply Forall_cons in Hidx as [Hlt Hrest].
    destruct (lookup_lt_is_Some_2 od idx) as [o Ho]; [lia|].
    destruct (lookup_lt_is_Some_2 md idx) as [m Hm]; [lia|].
    eapply yields_bind; [by apply yields_lift|]. intros ? ->.
    eapply yields_bind; [by apply yields_lift|]. intros ? ->.
    assert (Hcase : forall v, dated R o m v ->
      yields (R := R) (default_dates od md rest (series_set dd idx v))
        (fun r => length r = length dd /\
           forall i : nat,
             (i ∈ idx :: rest -> forall o m, od !! i = Some o -> md !! i = Some m ->
                          exists v, r !! i = Some v /\ dated R o m v) /\
             (i ∉ idx :: rest -> r !! i = dd !! i))).
    { intros v Hv. eapply yields_mono.
      - apply IH; rewrite ?length_series_set; done.
      - intros r [Hlen Hr]. rewrite length_series_set in Hlen by done.
        split; [done|]. intros i. destruct (Hr i) as [Hin Hout]. split.
        + intros Hi o' m' Ho' Hm'. destruct (decide (i ∈ rest)) as [Hir|Hir].
          * by apply Hin.
          * apply elem_of_cons in Hi as [->|Hi]; [|done].
            rewrite Hout, lookup_series_set_eq by done.
            simplify_eq. eauto.
        + intros Hi. apply not_elem_of_cons in Hi as [Hne Hir].
          rewrite Hout by done. by apply lookup_series_set_ne. }
    destruct (Z.leb_spec (Z.min today m) o) as [Hle|Hgt].
    + apply Hcase. exact Hle.
    + cbv zeta. eapply yields_bind.
      * apply yields_witnessed, (yields_integers1 HR 0 (Z.min today m - o + 1)).
        -- unfold int64_min. lia.
        -- rewrite Forall_forall in Hod.
           specialize (Hod o (list_elem_of_lookup_2 _ _ _ Ho)). lia.
        -- lia.
      * intros offset [Hoff (st & st' & Hdraw)]. cbv beta in Hoff. apply Hcase.
        unfold dated. split; [lia|].
        exists offset, st, st'. split; [exact Hdraw|]. split; [lia | done].
Qed.
End PandasFacts.

(** ** The routine *)

Lemma lookup_eq_str (seg : list string) (s : string) (i : nat) (x : string) :
  seg !! i = Some x -> eq_str seg s !! i = Some (String.eqb x s).
Proof. intros H. unfold eq_str. by rewrite lookup_map, H. Qed.

Lemma lookup_eq_int (arr : list Z) (k : Z) (i : nat) (x : Z) :
  arr !! i = Some x -> eq_int arr k !! i = Some (x =? k).
Proof. intros H. unfold eq_int. by rewrite lookup_map, H. Qed.

(** The three masked writes by segment leave no cell unwritten: the cell of
    a loan holds a value drawn for its segment. *)
Lemma scatter_by_segment {A} (seg : list string) (a v1 v2 v3 : list A)
    (P1 P2 P3 : A -> Prop) :
  Forall (fun s => s ∈ ["Retail"; "SME"; "Corporate"]) seg ->
  length a = length seg ->
  length v1 = count_true (eq_str seg "Retail") ->
  length v2 = count_true (eq_str seg "SME") ->
  length v3 = count_true (eq_str seg "Corporate") ->
  Forall P1 v1 -> Forall P2 v2 -> Forall P3 v3 ->
  Forall2 (fun s x => (s = "Retail" -> P1 x) /\ (s = "SME" -> P2 x) /\
                      (s = "Corporate" -> P3 x))
    seg
    (scatter (eq_str seg "Corporate")
       (scatter (eq_str seg "SME") (scatter (eq_str seg "Retail") a v1) v2) v3).
Proof.
  intros Hseg Ha H1 H2 H3 HP1 HP2 HP3.
  assert (Hm : forall s, length (eq_str seg s) = length seg)
    by (intros; unfold eq_str; apply length_map).
  apply Forall2_same_length_lookup_2; [by rewrite !length_scatter|].
  intros i s x Hs Hx.
  rewrite Forall_forall in Hseg. pose proof (Hseg s (list_elem_of_lookup_2 _ _ _ Hs)) as Hin.
  pose proof (lookup_eq_str seg "Retail" i s Hs) as Hr.
  pose proof (lookup_eq_str seg "SME" i s Hs) as Hsme.
  pose proof (lookup_eq_str seg "Corporate" i s Hs) as Hc.
  rewrite !elem_of_cons, elem_of_nil in Hin.
  destruct Hin as [->|[->|[->|[]]]]; simpl in Hr, Hsme, Hc.
  - rewrite !lookup_scatter_false in Hx by done.
    destruct (lookup_scatter_true (eq_str seg "Retail") a v1 i) as (y & Hy & Hin);
      [by rewrite Hm | done | done |].
    simplify_eq. rewrite Forall_forall in HP1. repeat split; intros; try done. auto.
  - rewrite lookup_scatter_false in Hx by done.
    destruct (lookup_scatter_true (eq_str seg "SME")
                (scatter (eq_str seg "Retail") a v1) v2 i) as (y & Hy & Hin);
      [by rewrite length_scatter, Hm | done | done |].
    simplify_eq. rewrite Forall_forall in HP2. repeat split; intros; try done. auto.
  - destruct (lookup_scatter_true (eq_str seg "Corporate")
                (scatter (eq_str seg "SME") (scatter (eq_str seg "Retail") a v1) v2) v3 i)
      as (y & Hy & Hin); [by rewrite !length_scatter, Hm | done | done |].
    simplify_eq. rewrite Forall_forall in HP3. repeat split; intros; try done. auto.
Qed.

(** And what the cells held before does not show. *)
Lemma scatter_by_segment_covers {A} (seg : list string) (a a' v1 v2 v3 : list A) :
  Forall (fun s => s ∈ ["Retail"; "SME"; "Corporate"]) seg ->
  length a = length seg -> length a' = length seg ->
  length v1 = count_true (eq_str seg "Retail") ->
  length v2 = count_true (eq_str seg "SME") ->
  length v3 = count_true (eq_str seg "Corporate") ->
  scatter (eq_str seg "Corporate")
    (scatter (eq_str seg "SME") (scatter (eq_str seg "Retail") a v1) v2) v3 =
  scatter (eq_str seg "Corporate")
    (scatter (eq_str seg "SME") (scatter (eq_str seg "Retail") a' v1) v2) v3.
Proof.
  intros Hseg Ha Ha' H1 H2 H3.
  assert (Hm : forall s, length (eq_str seg s) = length seg)
    by (intros; unfold eq_str; apply length_map).
  apply list_eq. intros i. destruct (seg !! i) as [s|] eqn:Hs.
  - rewrite Forall_forall in Hseg.
    pose proof (Hseg s (list_elem_of_lookup_2 _ _ _ Hs)) as Hin.
    pose proof (lookup_eq_str seg "Retail" i s Hs) as Hr.
    pose proof (lookup_eq_str seg "SME" i s Hs) as Hsme.
    pose proof (lookup_eq_str seg "Corporate" i s Hs) as Hc.
    rewrite !elem_of_cons, elem_of_nil in Hin.
    destruct Hin as [->|[->|[->|[]]]]; simpl in Hr, Hsme, Hc.
    + rewrite !(lookup_scatter_false (eq_str seg "Corporate")) by done.
      rewrite !(lookup_scatter_false (eq_str seg "SME")) by done.
      apply lookup_scatter_true_same; by rewrite ?Hm.
    + rewrite !(lookup_scatter_false (eq_str seg "Corporate")) by done.
      apply lookup_scatter_true_same; by rewrite ?length_scatter, ?Hm.
    + apply lookup_scatter_true_same; by rewrite ?length_scatter, ?Hm.
  - apply lookup_ge_None_1 in Hs.
    rewrite !lookup_ge_None_2; [done|..]; rewrite !length_scatter; lia.
Qed.

Ltac lens :=
  unfold sum_mask, eq_str, eq_int in *;
  repeat first
    [ rewrite length_scatter | rewrite length_map | rewrite length_replicate
    | rewrite Nat2Z.id | rewrite length_range_values | rewrite length_seq | rewrite length_zip_with
    | rewrite length_compress by lens ];
  lia.

Ltac masked_get := eapply agree_bind; [apply yields_getmask; lens|]; intros ? ->.
Ltac masked_set := eapply agree_bind; [apply yields_setmask; lens|]; intros ? ->.
Ltac pure_set :=
  eapply agree_pure;
    [intros; apply setmask_returns; lens | intros; apply setmask_returns; lens|];
  cbv beta.

Lemma Forall_compress {A} (P : A -> Prop) (mask : list bool) (a : list A) :
  Forall P a -> Forall P (compress mask a).
Proof.
  rewrite !Forall_forall. intros H x Hx. by apply H, (elem_of_compress mask).
Qed.

Lemma scatter_by_segment_Forall {A} (seg : list string) (a v1 v2 v3 : list A)
    (P : A -> Prop) :
  Forall (fun s => s ∈ ["Retail"; "SME"; "Corporate"]) seg ->
  length a = length seg ->
  length v1 = count_true (eq_str seg "Retail") ->
  length v2 = count_true (eq_str seg "SME") ->
  length v3 = count_true (eq_str seg "Corporate") ->
  Forall P v1 -> Forall P v2 -> Forall P v3 ->
  Forall P
    (scatter (eq_str seg "Corporate")
       (scatter (eq_str seg "SME") (scatter (eq_str seg "Retail") a v1) v2) v3).
Proof.
  intros Hseg Ha H1 H2 H3 HP1 HP2 HP3.
  eapply Forall2_Forall_r; [by apply (scatter_by_segment seg a v1 v2 v3 P P P)|].
  eapply Forall_impl; [exact Hseg|]. intros s Hs x (Hr & Hsme & Hc).
  rewrite !elem_of_cons, elem_of_nil in Hs. destruct Hs as [->|[->|[->|[]]]]; auto.
Qed.

Lemma same_length_columns (c : column) (rest : list (string * column)) :
  Forall (fun kc => column_length kc.2 = column_length c) rest ->
  forallb (fun kc => (column_length kc.2 =? column_length c)%nat) rest = true.
Proof.
  intros H. apply forallb_forall. intros kc Hkc. apply Nat.eqb_eq.
  rewrite Forall_forall in H. apply H. by apply list_elem_of_In.
Qed.

Section RoutineFacts.
Context {R : Runtime} (HR : Lawful R).

(** The routine returns whatever the memory held, the same locals and the
    same generator for any two contents, and the locals are as [Generated]
    says. *)
Lemma portfolio_agrees memory memory' n :
  n = 0 \/ 2 <= n -> fits R n ->
  agree (R := R) (portfolio memory n) (portfolio memory' n) (Generated R n).
Proof.
  intros Hn [Hbytes Hlimit].
  assert (Hn0 : 0 <= n) by lia.
  assert (Hmax : n / 2 <= int64_max).
  { apply Z.div_le_upper_bound; unfold int64_max, intp_max in *; lia. }
  assert (Hhalf : n <> 0 -> 1 <= n / 2 <= int64_max).
  { intros Hne. split; [|done]. apply Z.div_le_lower_bound; lia. }
  unfold portfolio.
  (* Basic IDs *)
  eapply agree_bind; [apply yields_arange; lia|]. intros ? ->.
  eapply agree_bind.
  { apply (yields_integers HR 1 (n / 2 + 1) n Hn0).
    intros Hne. specialize (Hhalf Hne). unfold int64_min. lia. }
  intros borrower [Hl_borrower Hborrower].
  (* Segments and countries *)
  eapply agree_bind; [by apply (yields_choice_p HR)|].
  intros seg [Hl_seg Hseg].
  eapply agree_bind; [by apply (yields_choice_uniform HR)|].
  intros ctry [Hl_ctry _].
  (* Dates *)
  eapply agree_bind.
  { apply (yields_integers HR 0 (5 * 365) n Hn0). intros _. by compute. }
  intros offs [Hl_offs Hoffs].
  eapply agree_bind.
  { apply (yields_integers HR 1 10 n Hn0). intros _. by compute. }
  intros years [Hl_years Hyears].
  (* Currency *)
  eapply agree_bind; [by apply (yields_choice_p HR)|].
  intros cur [Hl_cur _].
  (* Interest rates *)
  eapply agree_bind; [by apply yields_normal|]. intros sp_retail Hl_sp_retail.
  eapply agree_bind; [by apply yields_normal|]. intros sp_sme Hl_sp_sme.
  eapply agree_bind; [by apply yields_normal|]. intros sp_corp Hl_sp_corp.
  eapply agree_pure; [by intros; apply np_empty_returns..|]. cbv beta.
  masked_get. pure_set. masked_get. pure_set. masked_get. pure_set.
  rewrite (scatter_by_segment_covers seg (map memory (seq 0 (Z.to_nat n)))
             (map memory' (seq 0 (Z.to_nat n)))) by first [exact Hseg | lens].
  remember (scatter (eq_str seg "Corporate") _ _) as rate eqn:Hrate.
  assert (Hl_rate : length rate = Z.to_nat n) by (subst rate; lens).
  clear Hrate.
  (* PD *)
  eapply agree_bind; [by apply (yields_beta HR)|]. intros pd_retail [Hl_pd_retail Hpd_retail].
  eapply agree_bind; [by apply (yields_beta HR)|]. intros pd_sme [Hl_pd_sme Hpd_sme].
  eapply agree_bind; [by apply (yields_beta HR)|]. intros pd_corp [Hl_pd_corp Hpd_corp].
  eapply agree_pure; [by intros; apply np_empty_returns..|]. cbv beta.
  masked_get. pure_set. masked_get. pure_set. masked_get. pure_set.
  rewrite (scatter_by_segment_covers seg (map memory (seq 0 (Z.to_nat n)))
             (map memory' (seq 0 (Z.to_nat n)))) by first [exact Hseg | lens].
  remember (scatter (eq_str seg "Corporate") _ _) as pd eqn:Hpd_eq.
  assert (Hl_pd : length pd = Z.to_nat n) by (subst pd; lens).
  assert (Hpd : Forall (fun p => 0 <= p /\ p <= 1)%Q pd).
  { subst pd. apply scatter_by_segment_Forall; try (by apply Forall_compress); try done.
    all: lens. }
  clear Hpd_eq.
  (* LGD, EAD *)
  eapply agree_bind; [by apply (yields_uniform HR)|]. intros lgd_ [Hl_lgd _].
  eapply agree_bind; [by apply yields_normal|]. intros x Hl_x. cbv beta zeta in Hl_x |- *.
  remember (map (np_exp R) x) as exposure eqn:Hexposure.
  assert (Hl_exposure : length exposure = Z.to_nat n) by (subst exposure; lens).
  assert (Hpos : Forall (fun e => 0 < e)%Q exposure).
  { subst exposure. apply Forall_map, Forall_forall. intros. apply (np_exp_pos R HR). }
  clear Hexposure.
  (* Collateral and LTV *)
  eapply agree_bind; [by apply (yields_choice_p HR)|].
  intros hc [Hl_hc Hhc].
  eapply agree_pure; [by intros; apply np_empty_returns..|]. cbv beta.
  eapply agree_bind; [apply (yields_uniform HR); [done | unfold sum_mask; lia]|].
  intros t_retail [Hl_t_retail Ht_retail]. pure_set.
  eapply agree_bind; [apply (yields_uniform HR); [done | unfold sum_mask; lia]|].
  intros t_sme [Hl_t_sme Ht_sme]. pure_set.
  eapply agree_bind; [apply (yields_uniform HR); [done | unfold sum_mask; lia]|].
  intros t_corp [Hl_t_corp Ht_corp]. pure_set.
  rewrite (scatter_by_segment_covers seg (map memory (seq 0 (Z.to_nat n)))
             (map memory' (seq 0 (Z.to_nat n)))) by first [exact Hseg | lens].
  remember (scatter (eq_str seg "Corporate") _ _) as target eqn:Htarget_eq.
  assert (Hl_target : length target = Z.to_nat n) by (subst target; lens).
  assert (Htarget : Forall2 target_range seg target).
  { subst target. apply scatter_by_segment; try done. all: lens. }
  clear Htarget_eq.
  eapply agree_bind; [by apply yields_np_full|]. intros ? ->.
  masked_get. masked_get.
  eapply agree_bind; [apply yields_elementwise; lens|]. intros ? ->.
  masked_set.
  remember (scatter (eq_int hc 1) _ _) as cv eqn:Hcv.
  assert (Hl_cv : length cv = Z.to_nat n) by (subst cv; lens).
  rewrite <- compress_zip_with, scatter_compress in Hcv by lens.
  eapply agree_bind; [by apply yields_np_full|]. intros ? ->.
  cbv zeta.
  masked_get. masked_get.
  eapply agree_bind; [apply yields_elementwise; lens|]. intros ? ->.
  masked_set.
  remember (scatter (map (Qlt_bool 0) cv) _ _) as loan_to_value eqn:Hltv.
  assert (Hl_ltv : length loan_to_value = Z.to_nat n) by (subst loan_to_value; lens).
  rewrite <- compress_zip_with, scatter_compress in Hltv by lens.
  (* Defaults *)
  eapply agree_bind; [by apply (yields_binomial HR)|].
  intros dflt [Hl_dflt Hdflt].
  remember (map (fun d => today - d) offs) as odate eqn:Hodate.
  remember (zip_with (fun od y => od + y * 365) odate years) as mdate eqn:Hmdate.
  assert (Hl_odate : length odate = Z.to_nat n) by (subst odate; lens).
  assert (Hl_mdate : length mdate = Z.to_nat n) by (subst mdate; lens).
  eapply agree_bind.
  { apply (yields_default_dates HR).
    - subst odate. apply Forall_map. eapply Forall_impl; [exact Hoffs|].
      intros d Hd. cbv beta in *. unfold int64_max, today. lia.
    - lens.
    - lens.
    - apply Forall_forall. intros i Hi. apply elem_of_nonzero in Hi.
      apply lookup_lt_Some in Hi. revert Hi. lens. }
  intros ddate [Hl_ddate Hddate]. rewrite length_replicate in Hl_ddate.
  (* Days past due *)
  eapply agree_bind; [by apply yields_np_full|]. intros ? ->.
  eapply agree_bind.
  { apply (yields_integers HR 90 361); [unfold sum_mask; lia | intros _; by compute]. }
  intros dpd1 [Hl_dpd1 _]. masked_set.
  eapply agree_bind.
  { apply (yields_integers HR 0 30); [unfold sum_mask; lia | intros _; by compute]. }
  intros dpd0 [Hl_dpd0 _]. masked_set.
  remember (scatter (eq_int dflt 0) _ _) as dpd eqn:Hdpd.
  assert (Hl_dpd : length dpd = Z.to_nat n) by (subst dpd; lens).
  clear Hdpd.
  (* Provisions *)
  eapply agree_bind; [apply yields_elementwise; lens|]. intros ? ->.
  eapply agree_bind; [apply yields_elementwise; lens|]. intros ? ->.
  eapply agree_bind; [by apply (yields_uniform HR)|]. intros noise [Hl_noise _].
  eapply agree_bind; [apply yields_elementwise; lens|]. intros ? ->.
  (* Internal rating *)
  eapply agree_bind; [apply yields_cut|]. intros ? ->.
  eapply agree_bind.
  { apply yields_mk_DataFrame, same_length_columns.
    repeat (apply Forall_cons; split); [..|apply Forall_nil]; simpl; lens. }
  intros ? ->.
  eapply agree_bind; [by apply yields_to_pure_date|]. intros ? ->.
  eapply agree_bind; [by apply yields_to_pure_date|]. intros ? ->.
  eapply agree_bind; [by apply yields_to_pure_date|]. intros ? ->.
  apply agree_ret.
  split;
    cbn [loan_id borrower_id segment country origination_offset_days origination_date
         maturity_offset_years maturity_date currency interest_rate pd_1y lgd ead
         has_collateral ltv_target collateral_value ltv is_default default_date
         days_past_due expected_loss provision_amount internal_rating df];
    try done; try lens.
  intros i od md k Hod Hmd Hk. destruct (Hddate i) as [Hin Hout].
  pose proof (lookup_eq_int dflt 1 i k Hk) as Hmask.
  destruct (decide (k = 1)) as [->|Hne].
  - destruct (Hin (proj2 (elem_of_nonzero _ _) Hmask) od md Hod Hmd) as (v & Hv & Hd).
    exists v. repeat split; [done | done | intros; done].
  - exists None. rewrite Hout.
    + split; [|by split].
      apply lookup_replicate_2. apply lookup_lt_Some in Hk. lia.
    + rewrite elem_of_nonzero, Hmask. intros [= Heq]. apply Z.eqb_eq in Heq. done.
Qed.

Lemma portfolio_generated memory n :
  n = 0 \/ 2 <= n -> fits R n ->
  yields (R := R) (portfolio memory n) (Generated R n).
Proof. intros Hn Hmax. eapply agree_yields. by apply (portfolio_agrees memory memory). Qed.
End RoutineFacts.

(** ** The entry point *)

Section EntryFacts.
Context (R : Runtime) (memory : nat -> Q).

Lemma refused_seed n seed :
  seed < 0 -> generate_locals R memory n seed = Failure (ValueError NegativeSeed) 0.
Proof.
  intros H. unfold generate_locals, default_rng.
  destruct (Z.ltb_spec seed 0); [done | lia].
Qed.

(** With a seed that is accepted, the first statement that can fail is the
    draw of [borrower_id]; whatever it raises ends the call with no variate
    drawn. *)
Lemma borrower_draw_raises n seed c :
  0 <= seed -> fits R n ->
  (forall st, integers (R := R) 1 (n / 2 + 1) n st = Raised (ValueError c) st) ->
  generate_locals R memory n seed = Failure (ValueError c) 0.
Proof.
  intros Hs [Hbytes Hlimit] H. unfold generate_locals, default_rng.
  destruct (Z.ltb_spec seed 0); [lia|].
  unfold portfolio. unfold bind at 1. rewrite arange_returns by lia.
  unfold bind at 1. by rewrite H.
Qed.

(** A count below 2 always fits: the array of line 20 has at most one
    element. *)
Lemma small_count_fits n : n <= 1 -> fits R n.
Proof. intros H. unfold fits, intp_max. lia. Qed.

Lemma empty_range n seed :
  0 <= seed -> n < 0 \/ n = 1 ->
  generate_locals R memory n seed = Failure (ValueError LowGeHigh) 0.
Proof.
  intros Hs Hn. apply borrower_draw_raises; [done | apply small_count_fits; lia|].
  intros st.
  assert (Hhalf : n / 2 <= 0).
  { destruct Hn as [Hn| ->]; [|done].
    apply Z.lt_le_incl, Z.div_lt_upper_bound; lia. }
  unfold integers. destruct (Z.eqb_spec n 0); [lia|].
  unfold bind, check_bounds.
  destruct (Z.ltb_spec 1 int64_min) as [H|_]; [by compute in H|].
  destruct (Z.ltb_spec int64_max (n / 2 + 1 - 1)) as [H|_];
    [unfold int64_max in H; lia|].
  destruct (Z.ltb_spec (n / 2 + 1 - 1) 1); [done | lia].
Qed.

(** A count whose array of line 20 cannot be built ends the call there:
    with [ValueError] when its size in bytes does not fit [intp], and with
    [MemoryError] when the host does not hold it. *)
Lemma oversized n seed :
  0 <= seed -> ~ fits R n ->
  generate_locals R memory n seed =
  Failure (if intp_max <? 8 * n then ValueError ArrayTooBig else MemoryError) 0.
Proof.
  intros Hs Hn. unfold generate_locals, default_rng.
  destruct (Z.ltb_spec seed 0); [lia|].
  assert (Hpos : 1 < n).
  { destruct (Z.lt_ge_cases 1 n); [done|]. destruct Hn. apply small_count_fits. lia. }
  unfold portfolio. unfold bind at 1. unfold arange. cbv zeta.
  replace (Z.max (n + 1 - 1) 0) with n by lia.
  destruct (Z.ltb_spec intp_max (8 * n)); [done|].
  destruct (Z.ltb_spec (Z.pos (array_limit R)) n); [done|].
  destruct Hn. by split.
Qed.

Context (HR : Lawful R).

Lemma returns_generated n seed :
  0 <= seed -> n = 0 \/ 2 <= n -> fits R n ->
  exists l k, generate_locals R memory n seed = Success l k /\ Generated R n l.
Proof.
  intros Hs Hn Hmax. unfold generate_locals, default_rng.
  destruct (Z.ltb_spec seed 0); [lia|].
  destruct (yields_returned (portfolio memory n) (Generated R n)
              {| gen := seed_bitgen R seed; consumed := 0 |}
              (portfolio_generated HR memory n Hn Hmax)) as (l & st' & -> & Hl).
  eauto.
Qed.

(** Whenever the call returns, the locals are as [Generated] says. *)
Lemma success_generated n seed l k :
  generate_locals R memory n seed = Success l k ->
  0 <= seed /\ (n = 0 \/ 2 <= n) /\ fits R n /\ Generated R n l.
Proof.
  intros Hrun.
  destruct (Z.lt_ge_cases seed 0) as [Hs|Hs]; [by rewrite refused_seed in Hrun|].
  destruct (decide (n < 0 \/ n = 1)) as [Hn|Hn]; [by rewrite empty_range in Hrun|].
  destruct (decide (8 * n <= intp_max /\ n <= Z.pos (array_limit R))) as [Hbig|Hbig];
    [|by rewrite oversized in Hrun].
  assert (Hn' : n = 0 \/ 2 <= n) by lia.
  destruct (returns_generated n seed Hs Hn' Hbig) as (l' & k' & Hrun' & Hl).
  rewrite Hrun' in Hrun. by simplify_eq.
Qed.
End EntryFacts.

(** The counter runtime respects the ranges. *)
Lemma counter_lawful : Lawful Counter.runtime.
Proof.
  split; simpl.
  - intros rng g Hrng. pose proof (Z.mod_pos_bound g (rng + 1) ltac:(lia)). lia.
  - intros g. pose proof (Z.mod_pos_bound g 10 ltac:(lia)).
    unfold Qle, Qlt. simpl. lia.
  - intros _ _ g. pose proof (Z.mod_pos_bound g 7 ltac:(lia)).
    unfold Qle. simpl. lia.
  - intros n _ g Hn. pose proof (Z.mod_pos_bound g 2 ltac:(lia)). lia.
  - intros x. nra.
Qed.

(** ** Rows of a generated portfolio *)

(** The edges in their order, each above the decimal that names it. *)
Lemma edges_in_order :
  (0 < 0.005)%Q /\ (0.005 < f64_0_005)%Q /\ (f64_0_005 < 0.01)%Q /\
  (0.01 < f64_0_01)%Q /\ (f64_0_01 < 0.02)%Q /\ (0.02 < f64_0_02)%Q /\
  (f64_0_02 < 0.05)%Q /\ (0.05 < f64_0_05)%Q /\ (f64_0_05 < 1)%Q.
Proof. unfold f64_0_005, f64_0_01, f64_0_02, f64_0_05. repeat split; lra. Qed.

Ltac edges := unfold f64_0_005, f64_0_01, f64_0_02, f64_0_05, f64_0_003, f64_0_03 in *.

Lemma cut1_rating_table (p : Q) :
  (0 <= p)%Q -> (p <= 1)%Q ->
  cut1 rating_bins rating_labels true p = Some (rating_table p).
Proof.
  intros H0 H1. unfold cut1, rating_table, searchsorted_left, rating_bins. edges.
  cbn [List.filter hd andb].
  destruct (Qeq_bool p 0) eqn:Ez;
    [apply Qeq_bool_iff in Ez | apply Qeq_bool_neq in Ez];
  repeat match goal with
         | |- context [Qle_bool p ?c] =>
             let E := fresh "E" in
             destruct (Qle_bool p c) eqn:E;
             [apply Qle_bool_iff in E | apply Qle_bool_false in E]; try lra
         end;
  reflexivity.
Qed.

Section Rows.
Context {R : Runtime} {n : Z} {l : Locals} (G : Generated R n l).

Lemma row_in_range {A} (a : list A) (i : nat) (x : A) :
  a !! i = Some x -> length a = Z.to_nat n -> (i < Z.to_nat n)%nat.
Proof. intros H Hl. apply lookup_lt_Some in H. lia. Qed.

(** What the masked writes of lines 80 to 86 leave in row [i]. *)
Lemma row_collateral (i : nat) (h : Z) (e t : Q) :
  has_collateral l !! i = Some h -> ead l !! i = Some e -> ltv_target l !! i = Some t ->
  let c := if h =? 1 then (e / t)%Q else 0%Q in
  collateral_value l !! i = Some c /\
  ltv l !! i = Some (if Qlt_bool 0 c then Some (e / c)%Q else None).
Proof.
  intros Hh He Ht c.
  pose proof (row_in_range _ _ _ Hh (gen_len_has_collateral _ _ _ G)) as Hi.
  assert (Hc : collateral_value l !! i = Some c).
  { rewrite (gen_collateral_value _ _ _ G).
    apply (lookup_select _ _ _ i (h =? 1) (e / t)%Q 0%Q).
    - by apply lookup_eq_int.
    - rewrite lookup_zip_with, He, Ht. done.
    - by apply lookup_replicate_2. }
  split; [done|].
  rewrite (gen_ltv _ _ _ G).
  apply (lookup_select _ _ _ i (Qlt_bool 0 c) (Some (e / c)%Q) None).
  - by rewrite lookup_map, Hc.
  - rewrite lookup_zip_with, He, Hc. done.
  - by apply lookup_replicate_2.
Qed.
End Rows.

(** * The claims *)

(** The run on which the claims are tried: six loans, seed 42, on the
    counter runtime. *)
Ltac counter_run H :=
  eassert (H : generate_locals Counter.runtime Counter.memory 6 42 = Success _ _)
    by (vm_compute; reflexivity).

(** ** C1 *)

(** C1.  Two calls with the same [loan_count] and the same seed give the
    same result, whatever the memory that [np.empty] hands out held in
    either call: the same frame, the same locals (so every draw that reaches
    a column) and the same number of variates drawn, or the same
    exception. *)
Theorem two_calls_same_dataset (R : Runtime) (HR : Lawful R)
    (memory memory' : nat -> Q) (n seed : Z) :
  generate_locals R memory n seed = generate_locals R memory' n seed /\
  generate_loan_portfolio R memory n seed = generate_loan_portfolio R memory' n seed.
Proof.
  assert (Hl : generate_locals R memory n seed = generate_locals R memory' n seed).
  { destruct (Z.lt_ge_cases seed 0) as [Hs|Hs]; [by rewrite !refused_seed|].
    destruct (decide (n < 0 \/ n = 1)) as [Hn|Hn]; [by rewrite !empty_range|].
    destruct (decide (8 * n <= intp_max /\ n <= Z.pos (array_limit R))) as [Hbig|Hbig];
      [|by rewrite !oversized].
    unfold generate_locals. destruct (default_rng seed) as [e|st]; [done|].
    rewrite (agree_eq _ _ _ (portfolio_agrees HR memory memory' n ltac:(lia) Hbig) st).
    done. }
  split; [exact Hl|]. unfold generate_loan_portfolio. by rewrite Hl.
Qed.

Lemma two_calls_same_dataset_witness :
  generate_locals Counter.runtime Counter.memory 6 42
    = generate_locals Counter.runtime Counter.other_memory 6 42 /\
  generate_loan_portfolio Counter.runtime Counter.memory 6 42
    = generate_loan_portfolio Counter.runtime Counter.other_memory 6 42.
Proof.
  exact (two_calls_same_dataset Counter.runtime counter_lawful
           Counter.memory Counter.other_memory 6 42).
Defined.

(** ** C2 *)




(** ** C3 *)

(** C3, as amended.  In every generated row the rating is the bucket of
    [pd_1y] in the table whose buckets are closed on the right and whose
    edges are the binary64 values of the literals: [0, 0.005] is AAA,
    (0.005, 0.01] is AA, (0.01, 0.02] is A, (0.02, 0.05] is BBB and
    (0.05, 1] is BB/B; the column is that function mapped over [pd_1y]; the
    floats 0.003, 0.03 and 0.5 are rated AAA, BBB and BB/B, and the floats
    0.005, 0.01, 0.02 and 0.05 themselves AAA, AA, A and BBB. *)
Theorem rating_is_right_closed_bucket (R : Runtime) (HR : Lawful R)
    (memory : nat -> Q) (n seed : Z) (l : Locals) (k : nat) :
  generate_locals R memory n seed = Success l k ->
  internal_rating l = map (cut1 rating_bins rating_labels true) (pd_1y l) /\
  (forall (i : nat) (p : Q), pd_1y l !! i = Some p ->
     internal_rating l !! i = Some (Some (rating_table p)) /\
     ((0 <= p <= f64_0_005)%Q -> rating_table p = "AAA") /\
     ((f64_0_005 < p <= f64_0_01)%Q -> rating_table p = "AA") /\
     ((f64_0_01 < p <= f64_0_02)%Q -> rating_table p = "A") /\
     ((f64_0_02 < p <= f64_0_05)%Q -> rating_table p = "BBB") /\
     ((f64_0_05 < p <= 1)%Q -> rating_table p = "BB/B")) /\
  (cut1 rating_bins rating_labels true f64_0_003 = Some "AAA" /\
   cut1 rating_bins rating_labels true f64_0_03 = Some "BBB" /\
   cut1 rating_bins rating_labels true 0.5 = Some "BB/B") /\
  (cut1 rating_bins rating_labels true f64_0_005 = Some "AAA" /\
   cut1 rating_bins rating_labels true f64_0_01 = Some "AA" /\
   cut1 rating_bins rating_labels true f64_0_02 = Some "A" /\
   cut1 rating_bins rating_labels true f64_0_05 = Some "BBB").
Proof.
  intros Hrun. destruct (success_generated R memory HR n seed l k Hrun) as (_ & _ & _ & G).
  split; [exact (gen_internal_rating _ _ _ G)|]. split; [|by repeat split].
  intros i p Hp.
  pose proof (Forall_lookup_1 _ _ _ _ (gen_pd_1y _ _ _ G) Hp) as [H0 H1].
  split.
  - rewrite (gen_internal_rating _ _ _ G), lookup_map, Hp. simpl.
    by rewrite cut1_rating_table.
  - unfold rating_table. edges.
    repeat match goal with
           | |- context [Qle_bool p ?c] =>
               let E := fresh "E" in
               destruct (Qle_bool p c) eqn:E;
               [apply Qle_bool_iff in E | apply Qle_bool_false in E]
           end;
    repeat split; intros; first [reflexivity | lra].
Qed.

Lemma on_the_edge_lawful : Lawful Counter.on_the_edge.
Proof.
  split; simpl.
  - intros rng g Hrng. pose proof (Z.mod_pos_bound g (rng + 1) ltac:(lia)). lia.
  - intros g. pose proof (Z.mod_pos_bound g 10 ltac:(lia)).
    unfold Qle, Qlt. simpl. lia.
  - intros _ _ g. unfold f64_0_01. split; lra.
  - intros n _ g Hn. pose proof (Z.mod_pos_bound g 2 ltac:(lia)). lia.
  - intros x. nra.
Qed.

(** Two loans, seed 42, with the Beta sampler on the edge 0.01. *)
Ltac edge_run H :=
  eassert (H : generate_locals Counter.on_the_edge Counter.memory 2 42 = Success _ _)
    by (vm_compute; reflexivity).

Lemma rating_is_right_closed_bucket_witness :
  exists l k,
    generate_locals Counter.on_the_edge Counter.memory 2 42 = Success l k /\
    internal_rating l = map (cut1 rating_bins rating_labels true) (pd_1y l) /\
    pd_1y l !! 0%nat = Some f64_0_01 /\
    internal_rating l !! 0%nat = Some (Some "AA").
Proof.
  edge_run Hrun.
  destruct (rating_is_right_closed_bucket Counter.on_the_edge on_the_edge_lawful
              Counter.memory 2 42 _ _ Hrun) as (Hmap & Hrow & _).
  eexists _, _. split; [exact Hrun|]. split; [exact Hmap|]. split; [reflexivity|].
  exact (proj1 (Hrow 0%nat f64_0_01 eq_refl)).
Defined.

(** C3 as stated fails on a generated row: with a Beta sampler that returns
    the float 0.01, the first loan has [pd_1y = 0.01], which the
    specification's table rates A, whether its edge is read as 1 % or as the
    float, and the frame holds AA. *)
Lemma boundary_goes_to_lower_bucket :
  exists l k,
    generate_locals Counter.on_the_edge Counter.memory 2 42 = Success l k /\
    pd_1y l !! 0%nat = Some f64_0_01 /\
    spec_rating_table f64_0_01 = "A" /\
    (Qlt_bool f64_0_01 f64_0_01 = false /\ Qlt_bool f64_0_01 f64_0_02 = true) /\
    internal_rating l !! 0%nat = Some (Some "AA").
Proof.
  eexists _, _. split; [vm_compute; reflexivity|].
  split; [reflexivity|]. split; [reflexivity|]. split; [split; reflexivity|].
  reflexivity.
Qed.

(** ** C4 *)



(** ** C5 *)

(** C5.  In every generated row, [maturity_date] is strictly after
    [origination_date], and the difference is [365 * y] days for an integer
    [y] between 1 and 9. *)
Theorem maturity_after_origination (R : Runtime) (HR : Lawful R)
    (memory : nat -> Q) (n seed : Z) (l : Locals) (k : nat) (i : nat) (od md : Z) :
  generate_locals R memory n seed = Success l k ->
  origination_date l !! i = Some od ->
  maturity_date l !! i = Some md ->
  od < md /\ exists y, 1 <= y <= 9 /\ md - od = 365 * y.
Proof.
  intros Hrun Hod Hmd.
  destruct (success_generated R memory HR n seed l k Hrun) as (_ & _ & _ & G).
  rewrite (gen_maturity_date _ _ _ G) in Hmd.
  apply lookup_zip_with_Some in Hmd as (od' & y & -> & Hod' & Hy).
  assert (od' = od) as -> by congruence.
  pose proof (Forall_lookup_1 _ _ _ _ (gen_offset_years _ _ _ G) Hy) as Hrange.
  cbv beta in Hrange. split; [lia|]. exists y. lia.
Qed.

Lemma maturity_after_origination_witness :
  739192 < 740652 /\ exists y, 1 <= y <= 9 /\ 740652 - 739192 = 365 * y.
Proof.
  counter_run Hrun.
  exact (maturity_after_origination Counter.runtime counter_lawful Counter.memory
           6 42 _ _ 0%nat 739192 740652 Hrun eq_refl eq_refl).
Defined.

(** ** C6 *)

(** C6, as amended.  For [loan_count = 0] and every seed that [default_rng]
    accepts (a non-negative integer), the routine returns, without drawing,
    a frame with no row that has every column of the data model, in order. *)
Theorem empty_portfolio_keeps_header (R : Runtime) (memory : nat -> Q) (seed : Z) :
  0 <= seed ->
  exists frame,
    generate_loan_portfolio R memory 0 seed = Success frame 0 /\
    columns frame = header /\
    nrows frame = 0%nat /\
    Forall (fun kc => column_length kc.2 = 0%nat) frame.
Proof.
  intros Hseed. unfold generate_loan_portfolio, generate_locals, default_rng.
  destruct (Z.ltb_spec seed 0); [lia|].
  eexists. split; [vm_compute; reflexivity|].
  split; [reflexivity|]. split; [reflexivity|].
  repeat (apply Forall_cons; split); [..|apply Forall_nil]; reflexivity.
Qed.

Lemma empty_portfolio_keeps_header_witness :
  exists frame,
    generate_loan_portfolio Counter.runtime Counter.memory 0 1 = Success frame 0 /\
    columns frame = header /\
    nrows frame = 0%nat /\
    Forall (fun kc => column_length kc.2 = 0%nat) frame.
Proof.
  apply (empty_portfolio_keeps_header Counter.runtime Counter.memory 1). lia.
Defined.

(** C6 as stated fails for a seed that is an integer and negative. *)
Lemma empty_portfolio_refused :
  generate_loan_portfolio Counter.runtime Counter.memory 0 (-1)
    = Failure (ValueError NegativeSeed) 0.
Proof. vm_compute. reflexivity. Qed.

(** ** C7 *)

(** C7.  For every negative [loan_count] and every integer seed the call
    raises [ValueError] with no variate drawn, and so returns no frame: the
    seed is refused if it is negative, and otherwise the range of the
    [borrower_id] draw is empty. *)
Theorem negative_count_raises (R : Runtime) (memory : nat -> Q) (n seed : Z) :
  n < 0 ->
  generate_loan_portfolio R memory n seed
    = Failure (ValueError (if seed <? 0 then NegativeSeed else LowGeHigh)) 0.
Proof.
  intros Hn. unfold generate_loan_portfolio.
  destruct (Z.ltb_spec seed 0).
  - by rewrite refused_seed.
  - rewrite empty_range; [done | done | by left].
Qed.

Lemma negative_count_raises_witness :
  generate_loan_portfolio Counter.runtime Counter.memory (-5) 1
    = Failure (ValueError LowGeHigh) 0.
Proof.
  apply (negative_count_raises Counter.runtime Counter.memory (-5) 1). lia.
Defined.

(** ** C8 *)

(** C8.  In every generated row: without collateral ([has_collateral] is
    0) [collateral_value] is 0 and [ltv] is missing; with a positive
    [collateral_value], [ltv] is [ead / collateral_value]. *)
Theorem ltv_follows_collateral (R : Runtime) (HR : Lawful R)
    (memory : nat -> Q) (n seed : Z) (l : Locals) (k : nat)
    (i : nat) (h : Z) (e c : Q) :
  generate_locals R memory n seed = Success l k ->
  has_collateral l !! i = Some h ->
  ead l !! i = Some e ->
  collateral_value l !! i = Some c ->
  exists v,
    ltv l !! i = Some v /\
    (h = 0 -> c = 0%Q /\ v = None) /\
    ((0 < c)%Q -> v = Some (e / c)%Q).
Proof.
  intros Hrun Hh He Hc.
  destruct (success_generated R memory HR n seed l k Hrun) as (_ & _ & _ & G).
  destruct (lookup_lt_is_Some_2 (ltv_target l) i) as [t Ht].
  { rewrite (gen_len_ltv_target _ _ _ G).
    exact (row_in_range _ _ _ He (gen_len_ead _ _ _ G)). }
  destruct (row_collateral G i h e t Hh He Ht) as [Hc' Hltv]. cbv zeta in *.
  rewrite Hc in Hc'. injection Hc' as ->.
  eexists. split; [exact Hltv|]. split.
  - intros ->. simpl. done.
  - intros Hpos. apply Qlt_bool_iff in Hpos. by rewrite Hpos.
Qed.

Lemma ltv_follows_collateral_witness :
  exists l k e c,
    generate_locals Counter.runtime Counter.memory 6 42 = Success l k /\
    ead l !! 0%nat = Some e /\
    collateral_value l !! 0%nat = Some c /\
    ltv l !! 0%nat = Some (Some (e / c)%Q).
Proof.
  counter_run Hrun.
  destruct (ltv_follows_collateral Counter.runtime counter_lawful Counter.memory
              6 42 _ _ 0%nat 1 _ _ Hrun eq_refl eq_refl eq_refl)
    as (v & Hv & _ & Hpos).
  eexists _, _, _, _. split; [exact Hrun|].
  split; [reflexivity|]. split; [reflexivity|].
  rewrite Hv. f_equal. apply Hpos. reflexivity.
Defined.

(** ** C9 *)

(** C9.  For [loan_count = 1] and every integer seed the call raises and
    returns no frame.  With a seed that is accepted, what raises is the draw
    of [borrower_id]: its range is from 1 to [1 // 2 + 1 = 1], which is
    empty. *)
Theorem single_loan_raises (R : Runtime) (memory : nat -> Q) (seed : Z) :
  generate_loan_portfolio R memory 1 seed
    = Failure (ValueError (if seed <? 0 then NegativeSeed else LowGeHigh)) 0 /\
  1 / 2 + 1 = 1 /\
  forall st, integers (R := R) 1 (1 / 2 + 1) 1 st = Raised (ValueError LowGeHigh) st.
Proof.
  split; [|split; [reflexivity | intros st; reflexivity]].
  unfold generate_loan_portfolio. destruct (Z.ltb_spec seed 0).
  - by rewrite refused_seed.
  - rewrite empty_range; [done | done | by right].
Qed.

(** ** C10 *)

(** C10.  In every generated row with collateral ([has_collateral] is 1),
    [ltv] is present and is [ead / (ead / ltv_target)], which equals the
    target that was drawn; so it lies in the range of the row's segment,
    [0.3, 0.8] for Retail, [0.4, 0.9] for SME and [0.2, 0.9] for Corporate,
    and is at most 0.9.  Arithmetic is exact here: the equality is the one
    that holds of the floating-point values up to rounding. *)
Theorem ltv_is_drawn_target (R : Runtime) (HR : Lawful R)
    (memory : nat -> Q) (n seed : Z) (l : Locals) (k : nat)
    (i : nat) (s : string) (e t : Q) :
  generate_locals R memory n seed = Success l k ->
  has_collateral l !! i = Some 1 ->
  segment l !! i = Some s ->
  ead l !! i = Some e ->
  ltv_target l !! i = Some t ->
  ltv l !! i = Some (Some (e / (e / t))%Q) /\
  (e / (e / t) == t)%Q /\
  target_range s (e / (e / t))%Q /\
  (e / (e / t) <= 0.9)%Q.
Proof.
  intros Hrun Hh Hs He Ht.
  destruct (success_generated R memory HR n seed l k Hrun) as (_ & _ & _ & G).
  pose proof (Forall_lookup_1 _ _ _ _ (gen_ead _ _ _ G) He) as Hpos. cbv beta in Hpos.
  pose proof (Forall2_lookup_lr _ _ _ _ _ _ (gen_ltv_target _ _ _ G) Hs Ht) as Hrange.
  pose proof (Forall_lookup_1 _ _ _ _ (gen_segment _ _ _ G) Hs) as Hseg. cbv beta in Hseg.
  assert (Hlow : (0.2 <= t)%Q /\ (t <= 0.9)%Q).
  { destruct Hrange as (Hr & Hsme & Hc).
    rewrite !elem_of_cons, elem_of_nil in Hseg.
    destruct Hseg as [->|[->|[->|[]]]];
      [specialize (Hr eq_refl) | specialize (Hsme eq_refl) | specialize (Hc eq_refl)];
      split; lra. }
  assert (Hcv : (0 < e / t)%Q).
  { apply Qlt_shift_div_l; lra. }
  assert (Heq : (e / (e / t) == t)%Q) by (field; split; lra).
  destruct (row_collateral G i 1 e t Hh He Ht) as [_ Hltv]. cbv zeta in Hltv.
  change (1 =? 1) with true in Hltv. cbv iota in Hltv.
  apply Qlt_bool_iff in Hcv. rewrite Hcv in Hltv.
  split; [exact Hltv|]. split; [exact Heq|]. split.
  - unfold target_range in *. rewrite Heq. exact Hrange.
  - rewrite Heq. lra.
Qed.

Lemma ltv_is_drawn_target_witness :
  exists l k e t,
    generate_locals Counter.runtime Counter.memory 6 42 = Success l k /\
    ead l !! 0%nat = Some e /\
    ltv_target l !! 0%nat = Some t /\
    ltv l !! 0%nat = Some (Some (e / (e / t))%Q) /\
    (e / (e / t) == t)%Q /\
    target_range "Corporate" (e / (e / t))%Q /\
    (e / (e / t) <= 0.9)%Q.
Proof.
  counter_run Hrun.
  eexists _, _, _, _. split; [exact Hrun|].
  split; [reflexivity|]. split; [reflexivity|].
  exact (ltv_is_drawn_target Counter.runtime counter_lawful Counter.memory
           6 42 _ _ 0%nat "Corporate" _ _ Hrun eq_refl eq_refl eq_refl eq_refl).
Defined.


(** * Beyond the claims *)

(** ** Counting variates *)

Section AccountingFacts.
Context {R : Runtime}.

Lemma spends_of {A} (m : M R A) (P : A -> Prop) (c : nat) :
  yields m P -> costs m c -> spends m (fun a k => k = c /\ P a).
Proof.
  intros Hy Hc st. specialize (Hy st). specialize (Hc st). unfold wp in Hy.
  destruct (m st) as [a st'|]; [|done]. exists c. by rewrite (Hc a st' eq_refl).
Qed.

Lemma spends_ret {A} (a : A) (P : A -> nat -> Prop) : P a 0%nat -> spends (R := R) (ret a) P.
Proof. intros H st. exists 0%nat. split; [simpl; lia | done]. Qed.

Lemma spends_bind {A B} (m : M R A) (k : A -> M R B)
    (P : A -> nat -> Prop) (Q : B -> nat -> Prop) :
  spends m P ->
  (forall a k1, P a k1 -> spends (k a) (fun b k2 => Q b (k1 + k2)%nat)) ->
  spends (bind m k) Q.
Proof.
  intros Hm Hk st. specialize (Hm st). unfold bind.
  destruct (m st) as [a st'|]; [|done]. destruct Hm as (k1 & Hk1 & Ha).
  specialize (Hk a k1 Ha st'). destruct (k a st') as [b st''|]; [|done].
  destruct Hk as (k2 & Hk2 & Hb). exists (k1 + k2)%nat. split; [lia | done].
Qed.

Lemma spends_returned {A} (m : M R A) (P : A -> nat -> Prop) st :
  spends m P ->
  exists a st', m st = Returned a st' /\ P a (consumed st' - consumed st)%nat.
Proof.
  intros Hm. specialize (Hm st). destruct (m st) as [a st'|]; [|done].
  destruct Hm as (k & Hk & Ha). exists a, st'. split; [done|].
  by replace (consumed st' - consumed st)%nat with k by lia.
Qed.

Lemma costs_eq {A} (m : M R A) (c c' : nat) : costs m c -> c = c' -> costs m c'.
Proof. by intros H <-. Qed.

Lemma costs_ret {A} (a : A) : costs (R := R) (ret a) 0.
Proof. intros st a' st' [= <- <-]. lia. Qed.

Lemma costs_raise {A} (e : exn) (c : nat) : costs (R := R) (raise (A := A) e) c.
Proof. intros st a st' H. discriminate H. Qed.

Lemma costs_lift {A} (e : exn) (o : option A) : costs (R := R) (lift e o) 0.
Proof. destruct o; [apply costs_ret | apply costs_raise]. Qed.

Lemma costs_draw {A} (sampler : bitgen R -> A * bitgen R) : costs (draw sampler) 1.
Proof.
  intros st a st'. unfold draw. destruct (sampler (gen st)). intros [= <- <-]. simpl. lia.
Qed.

Lemma costs_bind {A B} (m : M R A) (k : A -> M R B) (c1 c2 : nat) :
  costs m c1 -> (forall a, costs (k a) c2) -> costs (bind m k) (c1 + c2).
Proof.
  intros Hm Hk st b st''. unfold bind. destruct (m st) as [a st'|] eqn:Hrun; [|done].
  intros Hrun'. rewrite (Hk a st' b st'' Hrun'), (Hm st a st' Hrun). lia.
Qed.

Lemma costs_fill {A} (n : nat) (m : M R A) : costs m 1 -> costs (fill n m) n.
Proof.
  intros Hm. induction n as [|n IH]; simpl; [apply costs_ret|].
  eapply costs_eq.
  - apply costs_bind; [exact Hm|]. intros x.
    apply costs_bind; [exact IH|]. intros xs. apply costs_ret.
  - lia.
Qed.

Lemma costs_for_each {A B} (f : A -> M R B) (xs : list A) (c : nat) :
  (forall x, costs (f x) c) -> costs (for_each f xs) (c * length xs).
Proof.
  intros Hf. induction xs as [|x xs IH]; simpl.
  - eapply costs_eq; [apply costs_ret | lia].
  - eapply costs_eq.
    + apply costs_bind; [apply Hf|]. intros y.
      apply costs_bind; [exact IH|]. intros ys. apply costs_ret.
    + lia.
Qed.
End AccountingFacts.

Section CallCosts.
Context {R : Runtime}.

Lemma costs_arange start stop : costs (R := R) (arange start stop) 0.
Proof.
  unfold arange. cbv zeta. repeat case_match; first [apply costs_ret | apply costs_raise].
Qed.

Lemma costs_integers low high size : costs (R := R) (integers low high size) (Z.to_nat size).
Proof.
  unfold integers. destruct (Z.eqb_spec size 0) as [->|Hne]; [apply costs_ret|].
  eapply costs_eq.
  - apply costs_bind.
    + unfold check_bounds. repeat case_match; first [apply costs_ret | apply costs_raise].
    + intros _. destruct (size <? 0); [apply costs_raise|].
      apply costs_fill, costs_draw.
  - lia.
Qed.

Lemma costs_integers1 low high : costs (R := R) (integers1 low high) 1.
Proof.
  unfold integers1. eapply costs_eq.
  - apply costs_bind.
    + unfold check_bounds. repeat case_match; first [apply costs_ret | apply costs_raise].
    + intros _. apply costs_draw.
  - lia.
Qed.

Lemma costs_take {A} (a : list A) (idx : list Z) : costs (R := R) (take a idx) 0.
Proof.
  unfold take. eapply costs_eq; [apply costs_for_each; intros; apply costs_lift | lia].
Qed.

Lemma costs_choice {A} (a : list A) (size : Z) (p : option (list Q)) :
  costs (R := R) (choice a size p) (Z.to_nat size).
Proof.
  unfold choice. case_match; [apply costs_raise|]. destruct p as [p|].
  - case_match; [|apply costs_raise].
    eapply costs_eq.
    + apply costs_bind.
      * unfold random. destruct (size <? 0); [apply costs_raise|].
        apply costs_fill, costs_draw.
      * intros u. apply costs_take.
    + lia.
  - eapply costs_eq.
    + apply costs_bind; [apply costs_integers|]. intros idx. apply costs_take.
    + lia.
Qed.

Lemma costs_normal loc scale size : costs (R := R) (normal loc scale size) (Z.to_nat size).
Proof.
  unfold normal. repeat case_match; try apply costs_raise. apply costs_fill, costs_draw.
Qed.

Lemma costs_beta a b size : costs (R := R) (beta a b size) (Z.to_nat size).
Proof.
  unfold beta. repeat case_match; try apply costs_raise. apply costs_fill, costs_draw.
Qed.

Lemma costs_uniform low high size : costs (R := R) (uniform low high size) (Z.to_nat size).
Proof.
  unfold uniform. repeat case_match; try apply costs_raise. apply costs_fill, costs_draw.
Qed.

Lemma costs_binomial n (p : list Q) : costs (R := R) (binomial n p) (length p).
Proof.
  unfold binomial. case_match; [apply costs_raise|].
  eapply costs_eq; [apply costs_for_each; intros; apply costs_draw | lia].
Qed.

Lemma costs_getmask {A} (a : list A) mask : costs (R := R) (getmask a mask) 0.
Proof. unfold getmask. case_match; [apply costs_ret | apply costs_raise]. Qed.

Lemma costs_setmask {A} (a : list A) mask vals : costs (R := R) (setmask a mask vals) 0.
Proof.
  unfold setmask. repeat case_match; first [apply costs_ret | apply costs_raise].
Qed.

Lemma costs_elementwise {A B C} (op : A -> B -> C) x y :
  costs (R := R) (elementwise op x y) 0.
Proof.
  unfold elementwise. repeat case_match; first [apply costs_ret | apply costs_raise].
Qed.

Lemma costs_np_full {A} (n : Z) (v : A) : costs (R := R) (np_full n v) 0.
Proof. unfold np_full. case_match; [apply costs_raise | apply costs_ret]. Qed.

Lemma costs_np_empty memory (n : Z) : costs (R := R) (np_empty memory n) 0.
Proof. unfold np_empty. case_match; [apply costs_raise | apply costs_ret]. Qed.

Lemma costs_cut x bins labels lowest : costs (R := R) (cut x bins labels lowest) 0.
Proof. unfold cut. repeat case_match; first [apply costs_ret | apply costs_raise]. Qed.

Lemma costs_mk_DataFrame data : costs (R := R) (mk_DataFrame data) 0.
Proof.
  unfold mk_DataFrame. repeat case_match; first [apply costs_ret | apply costs_raise].
Qed.

Lemma costs_to_pure_date name frame : costs (R := R) (to_pure_date name frame) 0.
Proof.
  unfold to_pure_date. eapply costs_eq.
  - apply costs_bind; [apply costs_lift|]. intros c. apply costs_ret.
  - lia.
Qed.
End CallCosts.

(** ** Masks that split the rows *)

Lemma count_by_segment (seg : list string) :
  Forall (fun s => s ∈ ["Retail"; "SME"; "Corporate"]) seg ->
  (count_true (eq_str seg "Retail") + count_true (eq_str seg "SME")
   + count_true (eq_str seg "Corporate") = length seg)%nat.
Proof.
  induction 1 as [|s seg Hs _ IH]; [done|].
  rewrite !elem_of_cons, elem_of_nil in Hs. unfold eq_str in *.
  destruct Hs as [->|[->|[->|[]]]]; simpl; lia.
Qed.

Lemma count_by_flag (flags : list Z) :
  Forall (fun k => 0 <= k <= 1) flags ->
  (count_true (eq_int flags 1) + count_true (eq_int flags 0) = length flags)%nat.
Proof.
  induction 1 as [|k flags Hk _ IH]; [done|]. unfold eq_int in *.
  assert (k = 0 \/ k = 1) as [-> | ->] by lia; simpl; lia.
Qed.

(** The two masked writes by default flag: the cell of a loan holds a value
    drawn for its flag. *)
Lemma scatter_by_flag {A} (flags : list Z) (a v1 v0 : list A) (P1 P0 : A -> Prop) :
  length a = length flags ->
  length v1 = count_true (eq_int flags 1) ->
  length v0 = count_true (eq_int flags 0) ->
  Forall P1 v1 -> Forall P0 v0 ->
  Forall2 (fun flag x => (flag = 1 -> P1 x) /\ (flag = 0 -> P0 x)) flags
    (scatter (eq_int flags 0) (scatter (eq_int flags 1) a v1) v0).
Proof.
  intros Ha H1 H0 HP1 HP0.
  assert (Hm : forall k, length (eq_int flags k) = length flags)
    by (intros; unfold eq_int; apply length_map).
  apply Forall2_same_length_lookup_2; [by rewrite !length_scatter|].
  intros i flag x Hflag Hx.
  pose proof (lookup_eq_int flags 1 i flag Hflag) as Hone.
  pose proof (lookup_eq_int flags 0 i flag Hflag) as Hzero.
  rewrite Forall_forall in HP1. rewrite Forall_forall in HP0. split.
  - intros ->. change (1 =? 1) with true in Hone. change (1 =? 0) with false in Hzero.
    rewrite lookup_scatter_false in Hx by done.
    destruct (lookup_scatter_true (eq_int flags 1) a v1 i) as (y & Hy & Hin);
      [by rewrite Hm | done | done |].
    simplify_eq. auto.
  - intros ->. change (0 =? 0) with true in Hzero.
    destruct (lookup_scatter_true (eq_int flags 0) (scatter (eq_int flags 1) a v1) v0 i)
      as (y & Hy & Hin); [by rewrite length_scatter, Hm | done | done |].
    simplify_eq. auto.
Qed.

Lemma NoDup_nonzero (mask : list bool) : NoDup (nonzero mask).
Proof.
  unfold nonzero. generalize 0%nat.
  induction mask as [|b mask IH]; intros k; simpl; [constructor|].
  destruct b; [|apply IH]. constructor; [|apply IH].
  rewrite nonzero_from_spec. lia.
Qed.

(** ** Dated rows *)

Lemma count_dated_replicate (n : nat) : count_dated (replicate n None) = 0%nat.
Proof. unfold count_dated. induction n as [|n IH]; [done | exact IH]. Qed.

Lemma count_dated_series_set (dd : list (option Z)) (idx : nat) (v : option Z) :
  dd !! idx = Some None ->
  count_dated (series_set dd idx v) = (count_dated dd + if is_dated v then 1 else 0)%nat.
Proof.
  intros Hidx. unfold series_set.
  rewrite (proj2 (Nat.ltb_lt _ _) (lookup_lt_Some _ _ _ Hidx)).
  unfold count_dated. revert idx Hidx.
  induction dd as [|d dd IH]; intros [|idx] Hidx; simplify_eq/=.
  - destruct v; simpl; lia.
  - specialize (IH idx Hidx). destruct d; simpl in *; lia.
Qed.

Section LoopCost.
Context {R : Runtime} (HR : Lawful R).

(** The loop draws once for every defaulted loan that gets a date, and for
    no other. *)
Lemma spends_default_dates (od md : list Z) (idxs : list nat) :
  Forall (fun o => today - int64_max <= o) od ->
  forall dd : list (option Z),
  length od = length dd -> length md = length dd ->
  NoDup idxs -> (forall i, i ∈ idxs -> dd !! i = Some None) ->
  spends (R := R) (default_dates od md idxs dd)
    (fun r k => length r = length dd /\ count_dated r = (count_dated dd + k)%nat).
Proof.
  intros Hod. induction idxs as [|idx rest IH]; intros dd Hlo Hlm Hnd Hnone; simpl.
  - apply spends_ret. split; [done | lia].
  - apply NoDup_cons in Hnd as [Hfresh Hnd].
    assert (Hidx : dd !! idx = Some None) by (apply Hnone; left).
    pose proof (lookup_lt_Some _ _ _ Hidx) as Hlt.
    destruct (lookup_lt_is_Some_2 od idx) as [o Ho]; [lia|].
    destruct (lookup_lt_is_Some_2 md idx) as [m Hm]; [lia|].
    assert (Hcase : forall v,
      spends (R := R) (default_dates od md rest (series_set dd idx v))
        (fun r k => length r = length dd /\
           count_dated r = (count_dated dd + (if is_dated v then 1 else 0) + k)%nat)).
    { intros v. intros st.
      assert (Hrest : forall i, i ∈ rest -> series_set dd idx v !! i = Some None).
      { intros i Hi. rewrite lookup_series_set_ne; [apply Hnone; by right | done |].
        intros ->. done. }
      specialize (IH (series_set dd idx v)
                    ltac:(by rewrite length_series_set)
                    ltac:(by rewrite length_series_set) Hnd Hrest st).
      destruct (default_dates od md rest (series_set dd idx v) st) as [r st'|]; [|done].
      destruct IH as (k & Hk & Hlen & Hcount). exists k. split; [done|].
      rewrite length_series_set in Hlen by done. split; [done|].
      by rewrite Hcount, count_dated_series_set. }
    eapply spends_bind; [apply spends_of; [by apply yields_lift | apply costs_lift]|].
    intros ? ? [-> ->].
    eapply spends_bind; [apply spends_of; [by apply yields_lift | apply costs_lift]|].
    intros ? ? [-> ->]. cbv beta.
    destruct (Z.leb_spec (Z.min today m) o) as [Hle|Hgt].
    + intros st. specialize (Hcase None st).
      destruct (default_dates od md rest (series_set dd idx None) st) as [r st'|]; [|done].
      destruct Hcase as (k & Hk & Hlen & Hcount). exists k. split; [done|].
      split; [done|]. simpl in Hcount. lia.
    + cbv zeta. eapply spends_bind.
      * apply spends_of; [|apply costs_integers1].
        apply (yields_integers1 HR 0 (Z.min today m - o + 1)).
        -- unfold int64_min. lia.
        -- rewrite Forall_forall in Hod.
           specialize (Hod o (list_elem_of_lookup_2 _ _ _ Ho)). lia.
        -- lia.
      * intros offset ? [-> _]. cbv beta. intros st.
        specialize (Hcase (Some (o + offset)) st).
        destruct (default_dates od md rest (series_set dd idx (Some (o + offset))) st)
          as [r st'|]; [|done].
        destruct Hcase as (k & Hk & Hlen & Hcount). exists k. split; [done|].
        split; [done|]. simpl in Hcount. lia.
Qed.
End LoopCost.

(** ** The routine, with its variates counted *)

Ltac spend C := eapply spends_bind; [apply spends_of; [|apply C]|].
Ltac spent_get :=
  spend @costs_getmask; [apply yields_getmask; lens|]; intros ? ? [-> ->]; cbv beta.
Ltac spent_set :=
  spend @costs_setmask; [apply yields_setmask; lens|]; intros ? ? [-> ->]; cbv beta.
Ltac spent_op :=
  spend @costs_elementwise; [apply yields_elementwise; lens|]; intros ? ? [-> ->]; cbv beta.

Section RoutineCost.
Context {R : Runtime} (HR : Lawful R).

Lemma portfolio_spends memory n :
  n = 0 \/ 2 <= n -> fits R n ->
  spends (R := R) (portfolio memory n)
    (fun l k => Detailed n l /\
                k = (19 * Z.to_nat n + count_dated (default_date l))%nat).
Proof.
  intros Hn [Hbytes Hlimit].
  assert (Hn0 : 0 <= n) by lia.
  assert (Hmax : n / 2 <= int64_max).
  { apply Z.div_le_upper_bound; unfold int64_max, intp_max in *; lia. }
  assert (Hhalf : n <> 0 -> 1 <= n / 2 <= int64_max).
  { intros Hne. split; [|done]. apply Z.div_le_lower_bound; lia. }
  unfold portfolio.
  (* Basic IDs *)
  spend @costs_arange; [apply yields_arange; lia|]. intros ? ? [-> ->]. cbv beta.
  spend @costs_integers.
  { apply (yields_integers HR 1 (n / 2 + 1) n Hn0).
    intros Hne. specialize (Hhalf Hne). unfold int64_min. lia. }
  intros borrower ? [-> [Hl_borrower _]]. cbv beta.
  (* Segments and countries *)
  spend @costs_choice; [by apply (yields_choice_p HR)|].
  intros seg ? [-> [Hl_seg Hseg]]. cbv beta.
  spend @costs_choice; [by apply (yields_choice_uniform HR)|].
  intros ctry ? [-> [Hl_ctry Hctry]]. cbv beta.
  (* Dates *)
  spend @costs_integers.
  { apply (yields_integers HR 0 (5 * 365) n Hn0). intros _. by compute. }
  intros offs ? [-> [Hl_offs Hoffs]]. cbv beta.
  spend @costs_integers.
  { apply (yields_integers HR 1 10 n Hn0). intros _. by compute. }
  intros years ? [-> [Hl_years Hyears]]. cbv beta.
  (* Currency *)
  spend @costs_choice; [by apply (yields_choice_p HR)|].
  intros cur ? [-> [Hl_cur Hcur]]. cbv beta.
  (* Interest rates *)
  spend @costs_normal; [by apply yields_normal|]. intros sp_retail ? [-> Hl_sp_retail].
  spend @costs_normal; [by apply yields_normal|]. intros sp_sme ? [-> Hl_sp_sme].
  spend @costs_normal; [by apply yields_normal|]. intros sp_corp ? [-> Hl_sp_corp].
  cbv beta in *.
  spend @costs_np_empty; [by apply yields_np_empty|]. intros ? ? [-> ->]. cbv beta.
  spent_get. spent_set. spent_get. spent_set. spent_get. spent_set.
  remember (scatter (eq_str seg "Corporate") _ _) as rate eqn:Hrate.
  assert (Hl_rate : length rate = Z.to_nat n) by (subst rate; lens).
  clear Hrate.
  (* PD *)
  spend @costs_beta; [by apply (yields_beta HR)|].
  intros pd_retail ? [-> [Hl_pd_retail Hpd_retail]]. cbv beta.
  spend @costs_beta; [by apply (yields_beta HR)|].
  intros pd_sme ? [-> [Hl_pd_sme Hpd_sme]]. cbv beta.
  spend @costs_beta; [by apply (yields_beta HR)|].
  intros pd_corp ? [-> [Hl_pd_corp Hpd_corp]]. cbv beta.
  spend @costs_np_empty; [by apply yields_np_empty|]. intros ? ? [-> ->]. cbv beta.
  spent_get. spent_set. spent_get. spent_set. spent_get. spent_set.
  remember (scatter (eq_str seg "Corporate") _ _) as pd eqn:Hpd_eq.
  assert (Hl_pd : length pd = Z.to_nat n) by (subst pd; lens).
  assert (Hpd : Forall (fun p => 0 <= p /\ p <= 1)%Q pd).
  { subst pd. apply scatter_by_segment_Forall; try (by apply Forall_compress); try done.
    all: lens. }
  clear Hpd_eq.
  (* LGD, EAD *)
  spend @costs_uniform; [by apply (yields_uniform HR)|].
  intros lgd_ ? [-> [Hl_lgd Hlgd]]. cbv beta.
  spend @costs_normal; [by apply yields_normal|]. intros x ? [-> Hl_x].
  cbv beta zeta in Hl_x |- *.
  remember (map (np_exp R) x) as exposure eqn:Hexposure.
  assert (Hl_exposure : length exposure = Z.to_nat n) by (subst exposure; lens).
  clear Hexposure.
  (* Collateral and LTV *)
  spend @costs_choice; [by apply (yields_choice_p HR)|].
  intros hc ? [-> [Hl_hc Hhc]]. cbv beta.
  spend @costs_np_empty; [by apply yields_np_empty|]. intros ? ? [-> ->]. cbv beta.
  spend @costs_uniform; [apply (yields_uniform HR); [done | unfold sum_mask; lia]|].
  intros t_retail ? [-> [Hl_t_retail _]]. cbv beta. spent_set.
  spend @costs_uniform; [apply (yields_uniform HR); [done | unfold sum_mask; lia]|].
  intros t_sme ? [-> [Hl_t_sme _]]. cbv beta. spent_set.
  spend @costs_uniform; [apply (yields_uniform HR); [done | unfold sum_mask; lia]|].
  intros t_corp ? [-> [Hl_t_corp _]]. cbv beta. spent_set.
  remember (scatter (eq_str seg "Corporate") _ _) as target eqn:Htarget_eq.
  assert (Hl_target : length target = Z.to_nat n) by (subst target; lens).
  clear Htarget_eq.
  spend @costs_np_full; [by apply yields_np_full|]. intros ? ? [-> ->]. cbv beta.
  spent_get. spent_get. spent_op. spent_set.
  remember (scatter (eq_int hc 1) _ _) as cv eqn:Hcv.
  assert (Hl_cv : length cv = Z.to_nat n) by (subst cv; lens).
  clear Hcv.
  spend @costs_np_full; [by apply yields_np_full|]. intros ? ? [-> ->]. cbv beta zeta.
  spent_get. spent_get. spent_op. spent_set.
  remember (scatter (map (Qlt_bool 0) cv) _ _) as loan_to_value eqn:Hltv.
  assert (Hl_ltv : length loan_to_value = Z.to_nat n) by (subst loan_to_value; lens).
  clear Hltv.
  (* Defaults *)
  spend @costs_binomial; [by apply (yields_binomial HR)|].
  intros dflt ? [-> [Hl_dflt Hdflt]]. cbv beta.
  remember (map (fun d => today - d) offs) as odate eqn:Hodate.
  remember (zip_with (fun od y => od + y * 365) odate years) as mdate eqn:Hmdate.
  assert (Hl_odate : length odate = Z.to_nat n) by (subst odate; lens).
  assert (Hl_mdate : length mdate = Z.to_nat n) by (subst mdate; lens).
  eapply spends_bind.
  { apply (spends_default_dates HR).
    - subst odate. apply Forall_map. eapply Forall_impl; [exact Hoffs|].
      intros d Hd. cbv beta in *. unfold int64_max, today. lia.
    - lens.
    - lens.
    - apply NoDup_nonzero.
    - intros i Hi. apply elem_of_nonzero in Hi. apply lookup_lt_Some in Hi.
      apply lookup_replicate_2. revert Hi. lens. }
  intros ddate kloop [Hl_ddate Hloop]. cbv beta.
  rewrite length_replicate in Hl_ddate. rewrite count_dated_replicate in Hloop.
  (* Days past due *)
  spend @costs_np_full; [by apply yields_np_full|]. intros ? ? [-> ->]. cbv beta.
  spend @costs_integers.
  { apply (yields_integers HR 90 361); [unfold sum_mask; lia | intros _; by compute]. }
  intros dpd1 ? [-> [Hl_dpd1 Hdpd1]]. cbv beta. spent_set.
  spend @costs_integers.
  { apply (yields_integers HR 0 30); [unfold sum_mask; lia | intros _; by compute]. }
  intros dpd0 ? [-> [Hl_dpd0 Hdpd0]]. cbv beta. spent_set.
  remember (scatter (eq_int dflt 0) _ _) as dpd eqn:Hdpd.
  assert (Hl_dpd : length dpd = Z.to_nat n) by (subst dpd; lens).
  assert (Hdpd_range :
    Forall2 (fun flag d => (flag = 1 -> 90 <= d < 361) /\ (flag = 0 -> 0 <= d < 30))
      dflt dpd).
  { subst dpd. apply scatter_by_flag; try done. all: lens. }
  clear Hdpd.
  (* Provisions *)
  spent_op. spent_op.
  spend @costs_uniform; [by apply (yields_uniform HR)|].
  intros noise ? [-> [Hl_noise Hnoise]]. cbv beta.
  spent_op.
  (* Internal rating *)
  spend @costs_cut; [apply yields_cut|]. intros ? ? [-> ->]. cbv beta.
  spend @costs_mk_DataFrame.
  { apply yields_mk_DataFrame, same_length_columns.
    repeat (apply Forall_cons; split); [..|apply Forall_nil]; simpl; lens. }
  intros ? ? [-> ->]. cbv beta.
  spend @costs_to_pure_date; [by apply yields_to_pure_date|]. intros ? ? [-> ->]. cbv beta.
  spend @costs_to_pure_date; [by apply yields_to_pure_date|]. intros ? ? [-> ->]. cbv beta.
  spend @costs_to_pure_date; [by apply yields_to_pure_date|]. intros ? ? [-> ->]. cbv beta.
  apply spends_ret. split.
  - split;
      cbn [country currency lgd is_default days_past_due expected_loss provision_amount
           pd_1y ead];
      try done.
    exists noise. by repeat split.
  - cbn [default_date].
    pose proof (count_by_segment seg Hseg) as Hsplit.
    pose proof (count_by_flag dflt Hdflt) as Hflags.
    unfold sum_mask. rewrite !Nat2Z.id. lia.
Qed.
End RoutineCost.


(** ** The call as a whole *)

Section CallFacts.
Context (R : Runtime) (HR : Lawful R) (memory : nat -> Q).

Lemma success_detailed n seed l k :
  generate_locals R memory n seed = Success l k ->
  Detailed n l /\ k = (19 * Z.to_nat n + count_dated (default_date l))%nat.
Proof.
  intros Hrun.
  destruct (success_generated R memory HR n seed l k Hrun) as (Hs & Hn & Hmax & _).
  revert Hrun. unfold generate_locals, default_rng.
  destruct (Z.ltb_spec seed 0); [lia|].
  destruct (spends_returned (portfolio memory n) _
              {| gen := seed_bitgen R seed; consumed := 0 |}
              (portfolio_spends HR memory n Hn Hmax)) as (l' & st' & -> & Hl & Hk).
  intros [= <- <-]. split; [done|]. simpl in Hk. lia.
Qed.

End CallFacts.


(** ** More about the rows of a generated portfolio *)

Lemma In_range_values (start stop x : Z) :
  start <= x < stop -> In x (range_values start stop).
Proof.
  intros Hx. unfold range_values. apply in_map_iff. exists (Z.to_nat (x - start)).
  split; [lia|]. apply in_seq. lia.
Qed.

(** X2.  Every [borrower_id] lies between 1 and [loan_count // 2], so as
    soon as there is a loan two loans share a borrower: the identifiers are
    never all distinct. *)
Theorem borrowers_are_shared (R : Runtime) (HR : Lawful R) (memory : nat -> Q)
    (n seed : Z) (l : Locals) (k : nat) :
  generate_locals R memory n seed = Success l k ->
  Forall (fun b => 1 <= b <= n / 2) (borrower_id l) /\
  (n <> 0 -> ~ NoDup (borrower_id l)).
Proof.
  intros Hrun.
  destruct (success_generated R memory HR n seed l k Hrun) as (_ & Hn & _ & G).
  split.
  - eapply Forall_impl; [exact (gen_borrower_id _ _ _ G)|]. intros b Hb. cbv beta in Hb. lia.
  - intros Hne Hnd.
    assert (Hincl : incl (borrower_id l) (range_values 1 (n / 2 + 1))).
    { intros b Hb. apply In_range_values.
      apply list_elem_of_In in Hb.
      exact (proj1 (Forall_forall _ _) (gen_borrower_id _ _ _ G) b Hb). }
    pose proof (NoDup_incl_length (proj1 (NoDup_ListNoDup _) Hnd) Hincl) as Hlen.
    rewrite (gen_len_borrower_id _ _ _ G), length_range_values in Hlen.
    assert (n / 2 < n) by (apply Z.div_lt; lia).
    assert (0 <= n / 2) by (apply Z.div_pos; lia).
    lia.
Qed.

Lemma borrowers_are_shared_witness :
  exists l k,
    generate_locals Counter.runtime Counter.memory 6 42 = Success l k /\
    Forall (fun b => 1 <= b <= 6 / 2) (borrower_id l) /\
    (6 <> 0 -> ~ NoDup (borrower_id l)).
Proof.
  counter_run Hrun. eexists _, _. split; [exact Hrun|].
  exact (borrowers_are_shared Counter.runtime counter_lawful Counter.memory 6 42 _ _ Hrun).
Defined.

(** X3.  In every generated row the segment is Retail, SME or Corporate, the
    country is one of DE, FR, IT, ES, NL and the currency one of EUR, USD,
    GBP. *)
Theorem categories_are_listed (R : Runtime) (HR : Lawful R) (memory : nat -> Q)
    (n seed : Z) (l : Locals) (k : nat) (i : nat) (s c u : string) :
  generate_locals R memory n seed = Success l k ->
  segment l !! i = Some s -> country l !! i = Some c -> currency l !! i = Some u ->
  s ∈ ["Retail"; "SME"; "Corporate"] /\
  c ∈ ["DE"; "FR"; "IT"; "ES"; "NL"] /\
  u ∈ ["EUR"; "USD"; "GBP"].
Proof.
  intros Hrun Hs Hc Hu.
  destruct (success_generated R memory HR n seed l k Hrun) as (_ & _ & _ & G).
  destruct (success_detailed R HR memory n seed l k Hrun) as [D _].
  split; [exact (Forall_lookup_1 _ _ _ _ (gen_segment _ _ _ G) Hs)|].
  split; [exact (Forall_lookup_1 _ _ _ _ (det_country _ _ D) Hc)|].
  exact (Forall_lookup_1 _ _ _ _ (det_currency _ _ D) Hu).
Qed.

Lemma categories_are_listed_witness :
  "Corporate" ∈ ["Retail"; "SME"; "Corporate"] /\
  "NL" ∈ ["DE"; "FR"; "IT"; "ES"; "NL"] /\
  "EUR" ∈ ["EUR"; "USD"; "GBP"].
Proof.
  counter_run Hrun.
  exact (categories_are_listed Counter.runtime counter_lawful Counter.memory 6 42 _ _
           0%nat "Corporate" "NL" "EUR" Hrun eq_refl eq_refl eq_refl).
Defined.

(** X4.  No loan is originated after [today] or 5 * 365 days or more before
    it, and a default date, when there is one, lies between the origination
    date and the earlier of [today] and the maturity date. *)
Theorem dates_are_not_in_the_future (R : Runtime) (HR : Lawful R) (memory : nat -> Q)
    (n seed : Z) (l : Locals) (k : nat) (i : nat) (od md : Z) :
  generate_locals R memory n seed = Success l k ->
  origination_date l !! i = Some od -> maturity_date l !! i = Some md ->
  today - 5 * 365 < od <= today /\
  (forall d, default_date l !! i = Some (Some d) -> od <= d <= today /\ d <= md).
Proof.
  intros Hrun Hod Hmd.
  destruct (success_generated R memory HR n seed l k Hrun) as (_ & _ & _ & G).
  assert (Hwin : today - 5 * 365 < od <= today).
  { rewrite (gen_origination_date _ _ _ G), lookup_map in Hod.
    destruct (origination_offset_days l !! i) as [d|] eqn:Hd; simplify_eq/=.
    pose proof (Forall_lookup_1 _ _ _ _ (gen_offset_days _ _ _ G) Hd) as Hrange.
    cbv beta in Hrange. lia. }
  split; [exact Hwin|]. intros d Hd.
  destruct (lookup_lt_is_Some_2 (is_default l) i) as [flag Hflag].
  { rewrite (gen_len_is_default _ _ _ G), <- (gen_len_default_date _ _ _ G).
    by eapply lookup_lt_Some. }
  destruct (gen_default_date _ _ _ G i od md flag Hod Hmd Hflag) as (v & Hv & Hyes & Hno).
  rewrite Hd in Hv. injection Hv as <-.
  destruct (decide (flag = 1)) as [->|Hne]; [|by specialize (Hno Hne)].
  destruct (Hyes eq_refl) as (_ & offset & _ & _ & _ & Hoff & ->). lia.
Qed.

Lemma dates_are_not_in_the_future_witness :
  today - 5 * 365 < 739191 <= today /\
  (forall d, Some (Some 739211) = Some (Some d) -> 739191 <= d <= today /\ d <= 741016).
Proof.
  counter_run Hrun.
  exact (dates_are_not_in_the_future Counter.runtime counter_lawful Counter.memory 6 42
           _ _ 1%nat 739191 741016 Hrun eq_refl eq_refl).
Defined.

(** X5.  In every generated row [pd_1y] lies in [0, 1], [lgd] in
    [0.2, 0.7] and [ead] is positive: no cell of the arrays that start as
    [np.empty] keeps what the memory held. *)
Theorem risk_parameters_in_range (R : Runtime) (HR : Lawful R) (memory : nat -> Q)
    (n seed : Z) (l : Locals) (k : nat) (i : nat) (p g e : Q) :
  generate_locals R memory n seed = Success l k ->
  pd_1y l !! i = Some p -> lgd l !! i = Some g -> ead l !! i = Some e ->
  (0 <= p <= 1)%Q /\ (0.2 <= g <= 0.7)%Q /\ (0 < e)%Q.
Proof.
  intros Hrun Hp Hg He.
  destruct (success_generated R memory HR n seed l k Hrun) as (_ & _ & _ & G).
  destruct (success_detailed R HR memory n seed l k Hrun) as [D _].
  split; [exact (Forall_lookup_1 _ _ _ _ (gen_pd_1y _ _ _ G) Hp)|].
  split; [exact (Forall_lookup_1 _ _ _ _ (det_lgd _ _ D) Hg)|].
  exact (Forall_lookup_1 _ _ _ _ (gen_ead _ _ _ G) He).
Qed.

Lemma risk_parameters_in_range_witness :
  exists p g e : Q, (0 <= p <= 1)%Q /\ (0.2 <= g <= 0.7)%Q /\ (0 < e)%Q.
Proof.
  counter_run Hrun. eexists _, _, _.
  exact (risk_parameters_in_range Counter.runtime counter_lawful Counter.memory 6 42
           _ _ 0%nat _ _ _ Hrun eq_refl eq_refl eq_refl).
Defined.

(** X6.  [has_collateral] is 0 or 1.  A loan with collateral has
    [collateral_value = ead / ltv_target], which is more than its [ead];
    and [ltv] is present exactly for the loans with collateral. *)
Theorem secured_loans_are_overcollateralised (R : Runtime) (HR : Lawful R)
    (memory : nat -> Q) (n seed : Z) (l : Locals) (k : nat)
    (i : nat) (h : Z) (e t : Q) (v : option Q) :
  generate_locals R memory n seed = Success l k ->
  has_collateral l !! i = Some h -> ead l !! i = Some e ->
  ltv_target l !! i = Some t -> ltv l !! i = Some v ->
  (h = 0 \/ h = 1) /\
  (h = 1 -> collateral_value l !! i = Some (e / t)%Q /\ (e < e / t)%Q) /\
  (v <> None <-> h = 1).
Proof.
  intros Hrun Hh He Ht Hv.
  destruct (success_generated R memory HR n seed l k Hrun) as (_ & _ & _ & G).
  pose proof (Forall_lookup_1 _ _ _ _ (gen_ead _ _ _ G) He) as Hpos. cbv beta in Hpos.
  pose proof (Forall_lookup_1 _ _ _ _ (gen_has_collateral _ _ _ G) Hh) as Hflag.
  cbv beta in Hflag. rewrite !elem_of_cons, elem_of_nil in Hflag.
  assert (Hcases : h = 0 \/ h = 1) by tauto. clear Hflag.
  destruct (lookup_lt_is_Some_2 (segment l) i) as [s Hs].
  { rewrite (gen_len_segment _ _ _ G), <- (gen_len_ead _ _ _ G). by eapply lookup_lt_Some. }
  pose proof (Forall2_lookup_lr _ _ _ _ _ _ (gen_ltv_target _ _ _ G) Hs Ht) as Hrange.
  pose proof (Forall_lookup_1 _ _ _ _ (gen_segment _ _ _ G) Hs) as Hseg. cbv beta in Hseg.
  assert (Ht_range : (0.2 <= t)%Q /\ (t <= 0.9)%Q).
  { destruct Hrange as (Hr & Hsme & Hc).
    rewrite !elem_of_cons, elem_of_nil in Hseg.
    destruct Hseg as [->|[->|[->|[]]]];
      [specialize (Hr eq_refl) | specialize (Hsme eq_refl) | specialize (Hc eq_refl)];
      split; lra. }
  assert (Hmore : (e < e / t)%Q) by (apply Qlt_shift_div_l; nra).
  destruct (row_collateral G i h e t Hh He Ht) as [Hcv Hltv]. cbv zeta in *.
  rewrite Hv in Hltv. injection Hltv as ->.
  split; [exact Hcases|]. destruct Hcases as [-> | ->].
  - split; [done|]. simpl. split; done.
  - change (1 =? 1) with true in *. cbv iota in *.
    assert (Hcpos : Qlt_bool 0 (e / t) = true) by (apply Qlt_bool_iff; lra).
    rewrite Hcpos. split; [done|]. split; done.
Qed.

Lemma secured_loans_are_overcollateralised_witness :
  exists l k e t (v : option Q),
    generate_locals Counter.runtime Counter.memory 6 42 = Success l k /\
    (1 = 0 \/ 1 = 1) /\
    (1 = 1 -> collateral_value l !! 0%nat = Some (e / t)%Q /\ (e < e / t)%Q) /\
    (v <> None <-> 1 = 1).
Proof.
  counter_run Hrun. eexists _, _, _, _, _. split; [exact Hrun|].
  exact (secured_loans_are_overcollateralised Counter.runtime counter_lawful
           Counter.memory 6 42 _ _ 0%nat 1 _ _ _ Hrun eq_refl eq_refl eq_refl eq_refl).
Defined.

(** X7.  [is_default] is 0 or 1; a defaulted loan is between 90 and 360
    days past due, any other loan between 0 and 29. *)
Theorem days_past_due_follow_default (R : Runtime) (HR : Lawful R) (memory : nat -> Q)
    (n seed : Z) (l : Locals) (k : nat) (i : nat) (flag d : Z) :
  generate_locals R memory n seed = Success l k ->
  is_default l !! i = Some flag -> days_past_due l !! i = Some d ->
  (flag = 0 /\ 0 <= d <= 29) \/ (flag = 1 /\ 90 <= d <= 360).
Proof.
  intros Hrun Hflag Hd.
  destruct (success_generated R memory HR n seed l k Hrun) as (_ & _ & _ & G).
  destruct (success_detailed R HR memory n seed l k Hrun) as [D _].
  pose proof (Forall_lookup_1 _ _ _ _ (gen_is_default _ _ _ G) Hflag) as Hrange.
  cbv beta in Hrange.
  destruct (Forall2_lookup_lr _ _ _ _ _ _ (det_days_past_due _ _ D) Hflag Hd) as [H1 H0].
  assert (flag = 0 \/ flag = 1) as [-> | ->] by lia.
  - left. specialize (H0 eq_refl). lia.
  - right. specialize (H1 eq_refl). lia.
Qed.

Lemma days_past_due_follow_default_witness :
  (1 = 0 /\ 0 <= 237 <= 29) \/ (1 = 1 /\ 90 <= 237 <= 360).
Proof.
  counter_run Hrun.
  exact (days_past_due_follow_default Counter.runtime counter_lawful Counter.memory 6 42
           _ _ 1%nat 1 237 Hrun eq_refl eq_refl).
Defined.

(** X8.  In every generated row the expected loss is [pd_1y * lgd * ead],
    which is between 0 and 70 % of [ead], and the provision is between 80 %
    and 120 % of it. *)
Theorem provision_within_band (R : Runtime) (HR : Lawful R) (memory : nat -> Q)
    (n seed : Z) (l : Locals) (k : nat) (i : nat) (p g e : Q) :
  generate_locals R memory n seed = Success l k ->
  pd_1y l !! i = Some p -> lgd l !! i = Some g -> ead l !! i = Some e ->
  exists a,
    provision_amount l !! i = Some a /\
    expected_loss l !! i = Some (p * g * e)%Q /\
    (0 <= p * g * e <= 0.7 * e)%Q /\
    (0.8 * (p * g * e) <= a <= 1.2 * (p * g * e))%Q.
Proof.
  intros Hrun Hp Hg He.
  destruct (success_generated R memory HR n seed l k Hrun) as (_ & _ & _ & G).
  destruct (success_detailed R HR memory n seed l k Hrun) as [D _].
  pose proof (Forall_lookup_1 _ _ _ _ (gen_pd_1y _ _ _ G) Hp) as Hp_range.
  pose proof (Forall_lookup_1 _ _ _ _ (det_lgd _ _ D) Hg) as Hg_range.
  pose proof (Forall_lookup_1 _ _ _ _ (gen_ead _ _ _ G) He) as He_pos.
  cbv beta in *.
  assert (Hel : expected_loss l !! i = Some (p * g * e)%Q).
  { rewrite (det_expected_loss _ _ D), !lookup_zip_with, Hp, Hg, He. done. }
  destruct (det_provision_amount _ _ D) as (noise & Hlen & Hnoise & Hprov).
  destruct (lookup_lt_is_Some_2 noise i) as [z Hz].
  { rewrite Hlen, <- (gen_len_ead _ _ _ G). by eapply lookup_lt_Some. }
  pose proof (Forall_lookup_1 _ _ _ _ Hnoise Hz) as Hz_range. cbv beta in Hz_range.
  exists (p * g * e * z)%Q. split.
  { rewrite Hprov, lookup_zip_with, Hel, Hz. done. }
  split; [exact Hel|].
  assert (Hpg : (0 <= p * g)%Q /\ (p * g <= 0.7)%Q) by (split; nra).
  assert (Hloss : (0 <= p * g * e)%Q /\ (p * g * e <= 0.7 * e)%Q) by (split; nra).
  split; [exact Hloss|]. split; nra.
Qed.

Lemma provision_within_band_witness :
  exists l k p g e a,
    generate_locals Counter.runtime Counter.memory 6 42 = Success l k /\
    provision_amount l !! 0%nat = Some a /\
    expected_loss l !! 0%nat = Some (p * g * e)%Q /\
    (0 <= p * g * e <= 0.7 * e)%Q /\
    (0.8 * (p * g * e) <= a <= 1.2 * (p * g * e))%Q.
Proof.
  counter_run Hrun.
  destruct (provision_within_band Counter.runtime counter_lawful Counter.memory 6 42
              _ _ 0%nat _ _ _ Hrun eq_refl eq_refl eq_refl) as (a & Ha).
  eexists _, _, _, _, _, a. split; [exact Hrun | exact Ha].
Defined.

(** X9.  A call that returns has drawn 19 variates for every loan, and one
    more for every loan that has a default date. *)
Theorem variates_drawn (R : Runtime) (HR : Lawful R) (memory : nat -> Q)
    (n seed : Z) (l : Locals) (k : nat) :
  generate_locals R memory n seed = Success l k ->
  k = (19 * Z.to_nat n + count_dated (default_date l))%nat.
Proof. intros Hrun. exact (proj2 (success_detailed R HR memory n seed l k Hrun)). Qed.

Lemma variates_drawn_witness :
  exists l,
    generate_locals Counter.runtime Counter.memory 6 42 = Success l 117 /\
    117%nat = (19 * Z.to_nat 6 + count_dated (default_date l))%nat.
Proof.
  counter_run Hrun. eexists. split; [exact Hrun|].
  exact (variates_drawn Counter.runtime counter_lawful Counter.memory 6 42 _ _ Hrun).
Defined.

(** X10.  In a frame that the routine returns, only [ltv] and
    [default_date] can hold a missing value: every other column is
    complete, [internal_rating] included. *)
Theorem missing_only_in_ltv_and_default_date (R : Runtime) (HR : Lawful R)
    (memory : nat -> Q) (n seed : Z) (frame : DataFrame) (k : nat)
    (name : string) (c : column) :
  generate_loan_portfolio R memory n seed = Success frame k ->
  In (name, c) frame -> name <> "ltv" -> name <> "default_date" ->
  complete c.
Proof.
  unfold generate_loan_portfolio.
  destruct (generate_locals R memory n seed) as [l k'|] eqn:Hrun; [|done].
  intros [= <- <-] Hin Hltv Hdd.
  destruct (success_generated R memory HR n seed l k' Hrun) as (_ & _ & _ & G).
  assert (Hsome : forall {A} (v : list A), Forall (fun x => x <> None) (map Some v)).
  { intros A v. apply Forall_map, Forall_forall. done. }
  rewrite (gen_df _ _ _ G) in Hin. simpl in Hin.
  repeat (destruct Hin as [Heq|Hin]; [injection Heq as <- <-; simpl; auto|]);
    try done.
  rewrite (gen_internal_rating _ _ _ G). apply Forall_map.
  eapply Forall_impl; [exact (gen_pd_1y _ _ _ G)|]. intros p [H0 H1].
  by rewrite cut1_rating_table.
Qed.

Lemma missing_only_in_ltv_and_default_date_witness :
  exists frame k c,
    generate_loan_portfolio Counter.runtime Counter.memory 6 42 = Success frame k /\
    get_column "internal_rating" frame = Some c /\
    complete c.
Proof.
  eassert (Hrun : generate_loan_portfolio Counter.runtime Counter.memory 6 42
                  = Success _ _) by (vm_compute; reflexivity).
  eexists _, _, _. split; [exact Hrun|]. split; [reflexivity|].
  eapply (missing_only_in_ltv_and_default_date Counter.runtime counter_lawful
            Counter.memory 6 42 _ _ "internal_rating" _ Hrun); [|done|done].
  do 17 right. left. reflexivity.
Defined.

(** ** The script *)

Lemma same_path_true (p q : list string) : same_path p q = true <-> p = q.
Proof. unfold same_path. destruct (List.list_eq_dec string_dec p q); split; done. Qed.

Lemma put_same p e fs : put p e fs p = Some e.
Proof. unfold put. by rewrite (proj2 (same_path_true p p) eq_refl). Qed.

Lemma put_other p q e fs : q <> p -> put p e fs q = fs q.
Proof.
  intros Hne. unfold put. destruct (same_path q p) eqn:E; [|done].
  by apply same_path_true in E.
Qed.

Lemma parent_child (p : list string) (x : string) : parent (p ++ [x])%list = p.
Proof. apply removelast_last. Qed.

Lemma child_is_not_parent (p : list string) (x : string) : (p ++ [x])%list <> p.
Proof. intros H. apply (f_equal length) in H. rewrite length_app in H. simpl in H. lia. Qed.

Lemma grandchild_is_not_child (p : list string) (x y z : string) :
  ((p ++ [x]) ++ [y])%list <> (p ++ [z])%list.
Proof.
  intros H. apply (f_equal length) in H. rewrite !length_app in H. simpl in H. lia.
Qed.

Lemma csv_is_not_xlsx base_dir : csv_path base_dir <> xlsx_path base_dir.
Proof. unfold csv_path, xlsx_path. intros H. by apply app_inv_head in H. Qed.

Section ScriptFacts.
Context (R : Runtime) (HR : Lawful R) (memory : nat -> Q).
Context (Hmem : 1000 <= Z.pos (array_limit R)).

(** The call that [main] makes returns a frame of 1000 rows and 18
    columns, on a host that holds arrays of 1000 elements. *)
Lemma call_in_main :
  exists frame k,
    generate_loan_portfolio R memory 1000 42 = Success frame k /\
    nrows frame = 1000%nat /\ columns frame = header /\ length frame = 18%nat.
Proof.
  destruct (returns_generated R memory HR 1000 42) as (l & k & Hrun & G);
    [lia | lia | split; [by compute | exact Hmem] |].
  exists (df l), k. unfold generate_loan_portfolio. rewrite Hrun.
  split; [done|]. rewrite (gen_df _ _ _ G).
  split; [exact (gen_len_loan_id _ _ _ G) | by split].
Qed.

(** What [main] does on a host where nothing is in its way: it holds arrays
    of 1000 elements, the project directory is there, [data] is missing or a
    directory, and neither file name is taken by a directory. *)
Lemma main_runs (base_dir : list string) (h : host) :
  files h base_dir = Some Directory ->
  files h (data_dir base_dir) = None \/ files h (data_dir base_dir) = Some Directory ->
  files h (csv_path base_dir) <> Some Directory ->
  files h (xlsx_path base_dir) <> Some Directory ->
  exists frame k fs1,
    generate_loan_portfolio R memory 1000 42 = Success frame k /\
    nrows frame = 1000%nat /\ columns frame = header /\
    fs1 (data_dir base_dir) = Some Directory /\
    (forall q, q <> data_dir base_dir -> fs1 q = files h q) /\
    main R memory base_dir h =
      if excel_engine h then
        (None,
         {| files := put (xlsx_path base_dir) (File (ExcelSheet frame))
                       (put (csv_path base_dir) (File (CsvTable frame)) fs1);
            excel_engine := excel_engine h;
            stdout := (stdout h ++ [Saved (csv_path base_dir) (xlsx_path base_dir)])%list
         |})
      else
        (Some ImportError,
         with_files (put (csv_path base_dir) (File (CsvTable frame)) fs1) h).
Proof.
  intros Hbase Hdata Hcsv Hxlsx.
  destruct call_in_main as (frame & k & Hcall & Hrows & Hcols & Hwidth).
  set (fs1 := match files h (data_dir base_dir) with
              | None => put (data_dir base_dir) Directory (files h)
              | _ => files h
              end).
  assert (Hmk : mkdir_exist_ok (data_dir base_dir) (files h) = inr fs1).
  { unfold mkdir_exist_ok, data_dir, fs1. rewrite parent_child, Hbase.
    fold (data_dir base_dir). by destruct Hdata as [-> | ->]. }
  assert (Hfs1 : fs1 (data_dir base_dir) = Some Directory).
  { unfold fs1. destruct Hdata as [Hd|Hd]; rewrite Hd; [apply put_same | done]. }
  assert (Hrest : forall q, q <> data_dir base_dir -> fs1 q = files h q).
  { intros q Hq. unfold fs1. destruct (files h (data_dir base_dir)); [done|].
    by apply put_other. }
  exists frame, k, fs1. repeat (split; [done|]).
  unfold main. rewrite Hmk, Hcall.
  assert (Hwrite : to_csv frame (csv_path base_dir) fs1
                   = inr (put (csv_path base_dir) (File (CsvTable frame)) fs1)).
  { unfold to_csv, write_file, csv_path. rewrite parent_child, Hfs1.
    fold (csv_path base_dir).
    rewrite Hrest by apply child_is_not_parent.
    destruct (files h (csv_path base_dir)) as [[|c]|]; done. }
  rewrite Hwrite. unfold to_excel. rewrite Hrows, Hwidth.
  change ((2 ^ 20 <? Z.of_nat 1000) || (2 ^ 14 <? Z.of_nat 18)) with false. cbv iota.
  destruct (excel_engine h); simpl negb; cbv iota; [|done].
  unfold write_file, xlsx_path. rewrite parent_child.
  rewrite put_other by (symmetry; apply child_is_not_parent).
  rewrite Hfs1. fold (xlsx_path base_dir).
  rewrite put_other by (symmetry; apply csv_is_not_xlsx).
  rewrite Hrest by apply child_is_not_parent.
  destruct (files h (xlsx_path base_dir)) as [[|c]|]; done.
Qed.
End ScriptFacts.

Lemma grandchild_is_not_root (p : list string) (x y : string) :
  p <> ((p ++ [x]) ++ [y])%list.
Proof.
  intros H. apply (f_equal length) in H. rewrite !length_app in H. simpl in H. lia.
Qed.

(** X11.  On a host that holds arrays of 1000 elements, where the project
    directory exists, [data] is missing or a directory, neither file name is
    taken by a directory and an Excel engine is installed, [main] ends
    without error: [data] is a directory,
    both files hold the frame that the routine returns for 1000 loans and
    seed 42, which has 1000 rows under the full header, nothing else in the
    file system has changed, and one line was printed. *)
Theorem main_writes_both_files (R : Runtime) (HR : Lawful R) (memory : nat -> Q)
    (base_dir : list string) (h : host) :
  1000 <= Z.pos (array_limit R) ->
  files h base_dir = Some Directory ->
  files h (data_dir base_dir) = None \/ files h (data_dir base_dir) = Some Directory ->
  files h (csv_path base_dir) <> Some Directory ->
  files h (xlsx_path base_dir) <> Some Directory ->
  excel_engine h = true ->
  exists frame k h',
    main R memory base_dir h = (None, h') /\
    generate_loan_portfolio R memory 1000 42 = Success frame k /\
    nrows frame = 1000%nat /\ columns frame = header /\
    files h' (data_dir base_dir) = Some Directory /\
    files h' (csv_path base_dir) = Some (File (CsvTable frame)) /\
    files h' (xlsx_path base_dir) = Some (File (ExcelSheet frame)) /\
    (forall q, q <> data_dir base_dir -> q <> csv_path base_dir ->
               q <> xlsx_path base_dir -> files h' q = files h q) /\
    stdout h' = (stdout h ++ [Saved (csv_path base_dir) (xlsx_path base_dir)])%list.
Proof.
  intros Hmem Hbase Hdata Hcsv Hxlsx Hengine.
  destruct (main_runs R HR memory Hmem base_dir h Hbase Hdata Hcsv Hxlsx)
    as (frame & k & fs1 & Hcall & Hrows & Hcols & Hfs1 & Hrest & Hmain).
  rewrite Hengine in Hmain. eexists frame, k, _. split; [exact Hmain|].
  repeat (split; [done|]). cbn [files stdout]. split.
  { rewrite !put_other; [done|..]; unfold csv_path, xlsx_path;
      symmetry; apply child_is_not_parent. }
  split.
  { rewrite put_other by apply csv_is_not_xlsx. apply put_same. }
  split; [apply put_same|]. split; [|done].
  intros q Hq1 Hq2 Hq3. rewrite !put_other by done. by apply Hrest.
Qed.

Lemma main_writes_both_files_witness :
  exists frame k h',
    main Counter.runtime Counter.memory ["srv"; "project"] (fresh_host true) = (None, h') /\
    generate_loan_portfolio Counter.runtime Counter.memory 1000 42 = Success frame k /\
    nrows frame = 1000%nat /\ columns frame = header /\
    files h' (data_dir ["srv"; "project"]) = Some Directory /\
    files h' (csv_path ["srv"; "project"]) = Some (File (CsvTable frame)) /\
    files h' (xlsx_path ["srv"; "project"]) = Some (File (ExcelSheet frame)) /\
    (forall q, q <> data_dir ["srv"; "project"] -> q <> csv_path ["srv"; "project"] ->
               q <> xlsx_path ["srv"; "project"] ->
               files h' q = files (fresh_host true) q) /\
    stdout h' = (stdout (fresh_host true)
                 ++ [Saved (csv_path ["srv"; "project"]) (xlsx_path ["srv"; "project"])])%list.
Proof.
  apply (main_writes_both_files Counter.runtime counter_lawful Counter.memory
           ["srv"; "project"] (fresh_host true)).
  - simpl. lia.
  - reflexivity.
  - left. reflexivity.
  - vm_compute. discriminate.
  - vm_compute. discriminate.
  - reflexivity.
Defined.

(** X12.  On the same host without an Excel engine, [main] ends with
    [ImportError] after the CSV file has been written: the CSV file holds
    the frame, the Excel file is as it was, and nothing was printed. *)
Theorem main_without_engine_leaves_csv (R : Runtime) (HR : Lawful R)
    (memory : nat -> Q) (base_dir : list string) (h : host) :
  1000 <= Z.pos (array_limit R) ->
  files h base_dir = Some Directory ->
  files h (data_dir base_dir) = None \/ files h (data_dir base_dir) = Some Directory ->
  files h (csv_path base_dir) <> Some Directory ->
  files h (xlsx_path base_dir) <> Some Directory ->
  excel_engine h = false ->
  exists frame k h',
    main R memory base_dir h = (Some ImportError, h') /\
    generate_loan_portfolio R memory 1000 42 = Success frame k /\
    files h' (data_dir base_dir) = Some Directory /\
    files h' (csv_path base_dir) = Some (File (CsvTable frame)) /\
    files h' (xlsx_path base_dir) = files h (xlsx_path base_dir) /\
    stdout h' = stdout h.
Proof.
  intros Hmem Hbase Hdata Hcsv Hxlsx Hengine.
  destruct (main_runs R HR memory Hmem base_dir h Hbase Hdata Hcsv Hxlsx)
    as (frame & k & fs1 & Hcall & Hrows & Hcols & Hfs1 & Hrest & Hmain).
  rewrite Hengine in Hmain. eexists frame, k, _. split; [exact Hmain|].
  split; [done|]. cbn [files stdout with_files]. split.
  { rewrite put_other; [done|]. unfold csv_path. symmetry. apply child_is_not_parent. }
  split; [apply put_same|]. split; [|done].
  rewrite put_other by (symmetry; apply csv_is_not_xlsx).
  apply Hrest. unfold xlsx_path. apply child_is_not_parent.
Qed.

Lemma main_without_engine_leaves_csv_witness :
  exists frame k h',
    main Counter.runtime Counter.memory ["srv"; "project"] (fresh_host false)
      = (Some ImportError, h') /\
    generate_loan_portfolio Counter.runtime Counter.memory 1000 42 = Success frame k /\
    files h' (data_dir ["srv"; "project"]) = Some Directory /\
    files h' (csv_path ["srv"; "project"]) = Some (File (CsvTable frame)) /\
    files h' (xlsx_path ["srv"; "project"])
      = files (fresh_host false) (xlsx_path ["srv"; "project"]) /\
    stdout h' = stdout (fresh_host false).
Proof.
  apply (main_without_engine_leaves_csv Counter.runtime counter_lawful Counter.memory
           ["srv"; "project"] (fresh_host false)).
  - simpl. lia.
  - reflexivity.
  - left. reflexivity.
  - vm_compute. discriminate.
  - vm_compute. discriminate.
  - reflexivity.
Defined.

(** X13.  When something that is not a directory is called [data], [main]
    ends with [FileExistsError] before the routine is called: the host is
    as it was, with no file written and nothing printed. *)
Theorem main_blocked_by_a_file (R : Runtime) (memory : nat -> Q)
    (base_dir : list string) (h : host) (c : content) :
  files h base_dir = Some Directory ->
  files h (data_dir base_dir) = Some (File c) ->
  main R memory base_dir h = (Some FileExistsError, h).
Proof.
  intros Hbase Hdata. unfold main, mkdir_exist_ok.
  unfold data_dir at 1. rewrite parent_child, Hbase, Hdata. done.
Qed.

Lemma main_blocked_by_a_file_witness :
  main Counter.runtime Counter.memory ["srv"; "project"] blocked_host
    = (Some FileExistsError, blocked_host).
Proof.
  apply (main_blocked_by_a_file Counter.runtime Counter.memory ["srv"; "project"]
           blocked_host OtherContent); reflexivity.
Defined.

(** X14.  On such a host, running [main] again after it has succeeded
    succeeds again and
    leaves every path of the file system as the first run left it: the two
    files are replaced by the same tables. *)
Theorem main_twice (R : Runtime) (HR : Lawful R) (memory : nat -> Q)
    (base_dir : list string) (h : host) :
  1000 <= Z.pos (array_limit R) ->
  files h base_dir = Some Directory ->
  files h (data_dir base_dir) = None \/ files h (data_dir base_dir) = Some Directory ->
  files h (csv_path base_dir) <> Some Directory ->
  files h (xlsx_path base_dir) <> Some Directory ->
  excel_engine h = true ->
  exists h' h'',
    main R memory base_dir h = (None, h') /\
    main R memory base_dir h' = (None, h'') /\
    (forall q, files h'' q = files h' q) /\
    stdout h'' =
      (stdout h ++ [Saved (csv_path base_dir) (xlsx_path base_dir);
                    Saved (csv_path base_dir) (xlsx_path base_dir)])%list.
Proof.
  intros Hmem Hbase Hdata Hcsv Hxlsx Hengine.
  destruct (main_runs R HR memory Hmem base_dir h Hbase Hdata Hcsv Hxlsx)
    as (frame & k & fs1 & Hcall & _ & _ & Hfs1 & Hrest & Hmain).
  rewrite Hengine in Hmain.
  set (h' := {| files := put (xlsx_path base_dir) (File (ExcelSheet frame))
                           (put (csv_path base_dir) (File (CsvTable frame)) fs1);
                excel_engine := true;
                stdout := (stdout h ++ [Saved (csv_path base_dir) (xlsx_path base_dir)])%list
             |}) in *.
  assert (Hdata' : files h' (data_dir base_dir) = Some Directory).
  { cbn [files h']. rewrite !put_other; [done|..]; unfold csv_path, xlsx_path;
      symmetry; apply child_is_not_parent. }
  assert (Hcsv' : files h' (csv_path base_dir) = Some (File (CsvTable frame))).
  { cbn [files h']. rewrite put_other by apply csv_is_not_xlsx. apply put_same. }
  assert (Hxlsx' : files h' (xlsx_path base_dir) = Some (File (ExcelSheet frame))).
  { cbn [files h']. apply put_same. }
  assert (Hbase' : files h' base_dir = Some Directory).
  { cbn [files h']. rewrite !put_other; [|unfold csv_path, data_dir; apply grandchild_is_not_root
                                         |unfold xlsx_path, data_dir; apply grandchild_is_not_root].
    rewrite Hrest; [done|]. unfold data_dir. symmetry. apply child_is_not_parent. }
  destruct (main_runs R HR memory Hmem base_dir h' Hbase' (or_intror Hdata')
              ltac:(by rewrite Hcsv') ltac:(by rewrite Hxlsx'))
    as (frame' & k' & fs1' & Hcall' & _ & _ & Hfs1' & Hrest' & Hmain').
  rewrite Hcall in Hcall'. injection Hcall' as <- <-.
  cbn [excel_engine h'] in Hmain'.
  eexists h', _. split; [exact Hmain|]. split; [exact Hmain'|]. cbn [files stdout]. split.
  - intros q.
    destruct (List.list_eq_dec string_dec q (xlsx_path base_dir)) as [->|Hq1];
      [by rewrite put_same, Hxlsx'|].
    rewrite put_other by done.
    destruct (List.list_eq_dec string_dec q (csv_path base_dir)) as [->|Hq2];
      [by rewrite put_same, Hcsv'|].
    rewrite put_other by done.
    destruct (List.list_eq_dec string_dec q (data_dir base_dir)) as [->|Hq3]; [by rewrite Hfs1', Hdata'|].
    by apply Hrest'.
  - cbn [stdout h']. by rewrite <- app_assoc.
Qed.

Lemma main_twice_witness :
  exists h' h'',
    main Counter.runtime Counter.memory ["srv"; "project"] (fresh_host true) = (None, h') /\
    main Counter.runtime Counter.memory ["srv"; "project"] h' = (None, h'') /\
    (forall q, files h'' q = files h' q) /\
    stdout h'' =
      (stdout (fresh_host true)
       ++ [Saved (csv_path ["srv"; "project"]) (xlsx_path ["srv"; "project"]);
           Saved (csv_path ["srv"; "project"]) (xlsx_path ["srv"; "project"])])%list.
Proof.
  apply (main_twice Counter.runtime counter_lawful Counter.memory
           ["srv"; "project"] (fresh_host true)).
  - simpl. lia.
  - reflexivity.
  - left. reflexivity.
  - vm_compute. discriminate.
  - vm_compute. discriminate.
  - reflexivity.
Defined.


(** ** The rating as a function *)

(** X15.  Under the bins and labels of the routine, [pd.cut] rates a value
    exactly when it lies in [0, 1] (outside it gives [nan]), and a higher
    [pd_1y] never gets a better rating. *)
Theorem rating_defined_and_monotone (p q : Q) :
  (p <= q)%Q ->
  (cut1 rating_bins rating_labels true p <> None <-> (0 <= p <= 1)%Q) /\
  (forall a b, cut1 rating_bins rating_labels true p = Some a ->
               cut1 rating_bins rating_labels true q = Some b ->
               (rating_rank a <= rating_rank b)%nat).
Proof.
  intros Hpq. split.
  - split.
    + intros Hdef. destruct (Qlt_le_dec p 0) as [Hneg|H0]; [exfalso|].
      * apply Hdef. unfold cut1, searchsorted_left, rating_bins. edges.
        cbn [List.filter hd andb].
        destruct (Qeq_bool p 0) eqn:Ez; [apply Qeq_bool_iff in Ez; lra|].
        repeat match goal with
               | |- context [Qle_bool p ?c] =>
                   let E := fresh "E" in
                   destruct (Qle_bool p c) eqn:E;
                   [|apply Qle_bool_false in E; lra]
               end.
        reflexivity.
      * destruct (Qlt_le_dec 1 p) as [Hbig|H1]; [exfalso | by split].
        apply Hdef. unfold cut1, searchsorted_left, rating_bins. edges.
        cbn [List.filter hd andb].
        destruct (Qeq_bool p 0) eqn:Ez; [apply Qeq_bool_iff in Ez; lra|].
        repeat match goal with
               | |- context [Qle_bool p ?c] =>
                   let E := fresh "E" in
                   destruct (Qle_bool p c) eqn:E;
                   [apply Qle_bool_iff in E; lra|]
               end.
        reflexivity.
    + intros [H0 H1]. by rewrite cut1_rating_table.
  - intros a b Ha Hb.
    assert (Hp : (0 <= p)%Q /\ (p <= 1)%Q).
    { destruct (Qlt_le_dec p 0) as [Hneg|H0]; [exfalso|].
      - revert Ha. unfold cut1, searchsorted_left, rating_bins. edges.
        cbn [List.filter hd andb].
        destruct (Qeq_bool p 0) eqn:Ez; [apply Qeq_bool_iff in Ez; lra|].
        repeat match goal with
               | |- context [Qle_bool p ?c] =>
                   let E := fresh "E" in
                   destruct (Qle_bool p c) eqn:E;
                   [|apply Qle_bool_false in E; lra]
               end.
        discriminate.
      - split; [done|]. destruct (Qlt_le_dec 1 p) as [Hbig|H1]; [exfalso | done].
        revert Ha. unfold cut1, searchsorted_left, rating_bins. edges.
        cbn [List.filter hd andb].
        destruct (Qeq_bool p 0) eqn:Ez; [apply Qeq_bool_iff in Ez; lra|].
        repeat match goal with
               | |- context [Qle_bool p ?c] =>
                   let E := fresh "E" in
                   destruct (Qle_bool p c) eqn:E;
                   [apply Qle_bool_iff in E; lra|]
               end.
        discriminate. }
    assert (Hq : (0 <= q)%Q /\ (q <= 1)%Q).
    { split; [lra|]. destruct (Qlt_le_dec 1 q) as [Hbig|H1]; [exfalso | done].
      revert Hb. unfold cut1, searchsorted_left, rating_bins. edges.
      cbn [List.filter hd andb].
      destruct (Qeq_bool q 0) eqn:Ez; [apply Qeq_bool_iff in Ez; lra|].
      repeat match goal with
             | |- context [Qle_bool q ?c] =>
                 let E := fresh "E" in
                 destruct (Qle_bool q c) eqn:E;
                 [apply Qle_bool_iff in E; lra|]
             end.
      discriminate. }
    rewrite cut1_rating_table in Ha by tauto. rewrite cut1_rating_table in Hb by tauto.
    injection Ha as <-. injection Hb as <-. unfold rating_table. edges.
    repeat match goal with
           | |- context [Qle_bool ?x ?c] =>
               let E := fresh "E" in
               destruct (Qle_bool x c) eqn:E;
               [apply Qle_bool_iff in E | apply Qle_bool_false in E]
           end;
      try lra; vm_compute; lia.
Qed.

Lemma rating_defined_and_monotone_witness :
  (cut1 rating_bins rating_labels true 0.003 <> None <-> (0 <= 0.003 <= 1)%Q) /\
  (forall a b, cut1 rating_bins rating_labels true 0.003 = Some a ->
               cut1 rating_bins rating_labels true 0.03 = Some b ->
               (rating_rank a <= rating_rank b)%nat).
Proof. apply (rating_defined_and_monotone 0.003 0.03). lra. Defined.
